(** * Quest queue of [src/main.py]: characters, quests and assignments

    A shallow embedding of the FastAPI / SQLAlchemy program of [src/main.py].
    The three tables are lists of rows in rowid order; a request handler is a
    function from the session's database to the database after the request
    together with what the handler returned or raised.

    Conventions of the embedding:
    - Python's [int] and SQLite's INTEGER are [Z] (SQLite's 64-bit limit is
      not modelled);
    - [query.first()] is the head of the result list, [query.count()] its
      length, [query.all()] the list itself;
    - [order_by] is a stable sort of the rows in rowid order, so rows with
      equal [orden] come out in rowid order. *)

From Stdlib Require Import ZArith List String Bool Lia Permutation Sorted.
Import ListNotations.
Open Scope string_scope.
Open Scope list_scope.
Open Scope Z_scope.

(** ** Tables (main.py 13-41) *)

Module Mision.
Record t : Type := mk {
  id : Z;
  nombre : string;
  descripcion : string;
  experiencia : Z;
  fecha_creacion : Z
}.
End Mision.

Module Personaje.
Record t : Type := mk {
  id : Z;
  nombre : string;
  experiencia : Z
}.
End Personaje.

(** [mision_id] is nullable: no handler inserts a NULL, but deleting a
    [Mision] makes the ORM null the foreign key of its [personajes]
    collection (the relationship has no delete cascade). *)
Module MisionPersonaje.
Record t : Type := mk {
  id : Z;
  personaje_id : Z;
  mision_id : option Z;
  orden : Z;
  estado : bool
}.
Definition set_estado (b : bool) (r : t) : t :=
  mk (id r) (personaje_id r) (mision_id r) (orden r) b.
Definition set_mision_id (m : option Z) (r : t) : t :=
  mk (id r) (personaje_id r) m (orden r) (estado r).
End MisionPersonaje.

(** The database a [Session] reads and commits to. *)
Record Session : Type := mkSession {
  misiones : list Mision.t;
  personajes : list Personaje.t;
  misiones_personaje : list MisionPersonaje.t
}.

Definition db_vacia : Session := mkSession [] [] [].

(** ** Request bodies (main.py 48-78) *)

Module MisionCreate.
Record t : Type := mk {
  nombre : string;
  descripcion : string;
  experiencia : Z
}.
End MisionCreate.

Module PersonajeCreate.
Record t : Type := mk { nombre : string }.
End PersonajeCreate.

Module CompletarMisionRequest.
Record t : Type := mk { personaje_id : Z; mision_id : Z }.
End CompletarMisionRequest.

Module AceptarMisionRequest.
Record t : Type := mk { personaje_id : Z; mision_id : Z; orden : Z }.
End AceptarMisionRequest.

(** ** Outcomes of a handler *)

Record HTTPException : Type := mkHTTPException {
  status_code : Z;
  detail : string
}.

Inductive Outcome (A : Type) : Type :=
| Returned (a : A)
| Raised (e : HTTPException).
Arguments Returned {A} a.
Arguments Raised {A} e.

Definition Handler (A : Type) : Type := Session -> Session * Outcome A.

Definition raise {A : Type} (code : Z) (msg : string) : Handler A :=
  fun db => (db, Raised (mkHTTPException code msg)).

Definition commit {A : Type} (db' : Session) (a : A) : Handler A :=
  fun _ => (db', Returned a).

(** ** Query combinators *)

Definition first {A : Type} (l : list A) : option A := hd_error l.

Definition count {A : Type} (l : list A) : Z := Z.of_nat (List.length l).

Section OrderBy.
Context {A : Type} (leb : A -> A -> bool).

Fixpoint insert_row (r : A) (l : list A) : list A :=
  match l with
  | [] => [r]
  | x :: l' => if leb r x then r :: l else x :: insert_row r l'
  end.

(** [fold_right]: a row is inserted in front of the later rows it ties with. *)
Definition order_by (l : list A) : list A := fold_right insert_row [] l.
End OrderBy.

Definition orden_asc (r x : MisionPersonaje.t) : bool :=
  MisionPersonaje.orden r <=? MisionPersonaje.orden x.

Definition orden_desc (r x : MisionPersonaje.t) : bool :=
  MisionPersonaje.orden x <=? MisionPersonaje.orden r.

(** Fresh INTEGER PRIMARY KEY: one more than the largest key in the table. *)
Definition siguiente_id (ids : list Z) : Z := fold_right Z.max 0 ids + 1.

Definition option_Z_eqb (a : option Z) (b : Z) : bool :=
  match a with
  | Some x => x =? b
  | None => false
  end.

(** [db.query(Personaje).filter(Personaje.id == pid).first()] *)
Definition query_personaje (db : Session) (pid : Z) : option Personaje.t :=
  first (filter (fun p => Personaje.id p =? pid) (personajes db)).

(** [db.query(Mision).filter(Mision.id == mid).first()] *)
Definition query_mision (db : Session) (mid : Z) : option Mision.t :=
  first (filter (fun m => Mision.id m =? mid) (misiones db)).

(** The [mision] relationship of a [MisionPersonaje] row. *)
Definition relacion_mision (db : Session) (r : MisionPersonaje.t)
  : option Mision.t :=
  match MisionPersonaje.mision_id r with
  | Some mid => query_mision db mid
  | None => None
  end.

(** [.join(Mision)]: the rows of [misiones_personaje] that have a quest. *)
Definition join_Mision (db : Session) (r : MisionPersonaje.t) : bool :=
  match relacion_mision db r with
  | Some _ => true
  | None => false
  end.

(** [filter_by(personaje_id=pid, estado=False)] *)
Definition pendiente_de (pid : Z) (r : MisionPersonaje.t) : bool :=
  (MisionPersonaje.personaje_id r =? pid) && negb (MisionPersonaje.estado r).

(** [filter_by(personaje_id=pid, mision_id=mid, estado=False)] *)
Definition pendiente_de_par (pid mid : Z) (r : MisionPersonaje.t) : bool :=
  (MisionPersonaje.personaje_id r =? pid)
  && option_Z_eqb (MisionPersonaje.mision_id r) mid
  && negb (MisionPersonaje.estado r).

(** Row updates and deletes go by primary key. *)
Definition update_personaje (p' : Personaje.t) (l : list Personaje.t)
  : list Personaje.t :=
  map (fun p => if Personaje.id p =? Personaje.id p' then p' else p) l.

Definition update_mision (m' : Mision.t) (l : list Mision.t) : list Mision.t :=
  map (fun m => if Mision.id m =? Mision.id m' then m' else m) l.

Definition update_relacion (r' : MisionPersonaje.t)
  (l : list MisionPersonaje.t) : list MisionPersonaje.t :=
  map (fun r => if MisionPersonaje.id r =? MisionPersonaje.id r' then r' else r) l.

Definition delete_relacion (r' : MisionPersonaje.t)
  (l : list MisionPersonaje.t) : list MisionPersonaje.t :=
  filter (fun r => negb (MisionPersonaje.id r =? MisionPersonaje.id r')) l.

(** ** GET /misiones (main.py 87-104) *)

(** The body of the [try]. The inner join keeps the rows whose quest exists;
    on those rows [relacion.mision] is never [None]. *)
Definition obtener_misiones_por_personaje_try (personaje_id : Z)
  : Handler (list Mision.t) := fun db =>
  match query_personaje db personaje_id with
  | None => raise 404 "Personaje no encontrado" db
  | Some _ =>
      let relaciones :=
        order_by orden_asc
          (filter (pendiente_de personaje_id)
             (filter (join_Mision db) (misiones_personaje db))) in
      let misiones :=
        flat_map (fun relacion =>
                    match relacion_mision db relacion with
                    | Some m => [m]
                    | None => []
                    end) relaciones in
      (db, Returned misiones)
  end.

Section ExceptException.
(** Python's [str(e)] on a raised [HTTPException]; its text depends on the
    installed framework version. *)
Variable str : HTTPException -> string.

(** [except Exception as e] also catches the [HTTPException] raised inside
    the [try], and raises a 500 in its place. *)
Definition obtener_misiones_por_personaje (personaje_id : Z)
  : Handler (list Mision.t) := fun db =>
  match obtener_misiones_por_personaje_try personaje_id db with
  | (db', Returned misiones) => (db', Returned misiones)
  | (db', Raised e) =>
      (db', Raised (mkHTTPException 500 (String.append "Error interno: " (str e))))
  end.
End ExceptException.

(** ** Quest CRUD (main.py 106-138) *)

Definition obtener_mision (id : Z) : Handler Mision.t := fun db =>
  match query_mision db id with
  | None => raise 404 "Misión no encontrada" db
  | Some mision => (db, Returned mision)
  end.

(** [utcnow] is the clock reading the column default takes at insertion. *)
Definition crear_mision (mision : MisionCreate.t) (utcnow : Z)
  : Handler Mision.t := fun db =>
  let nueva_mision :=
    Mision.mk (siguiente_id (map Mision.id (misiones db)))
      (MisionCreate.nombre mision) (MisionCreate.descripcion mision)
      (MisionCreate.experiencia mision) utcnow in
  commit (mkSession (misiones db ++ [nueva_mision]) (personajes db)
            (misiones_personaje db)) nueva_mision db.

Definition actualizar_mision (id : Z) (descripcion : string)
  : Handler Mision.t := fun db =>
  match query_mision db id with
  | None => raise 404 "Misión no encontrada" db
  | Some mision =>
      let mision' :=
        Mision.mk (Mision.id mision) (Mision.nombre mision) descripcion
          (Mision.experiencia mision) (Mision.fecha_creacion mision) in
      commit (mkSession (update_mision mision' (misiones db)) (personajes db)
                (misiones_personaje db)) mision' db
  end.

(** [db.delete(mision)]: the row goes, and the rows of its [personajes]
    collection stay with [mision_id] set to NULL. *)
Definition eliminar_mision (id : Z) : Handler string := fun db =>
  match query_mision db id with
  | None => raise 404 "Misión no encontrada" db
  | Some mision =>
      commit
        (mkSession
           (filter (fun m => negb (Mision.id m =? Mision.id mision)) (misiones db))
           (personajes db)
           (map (fun r =>
                   if option_Z_eqb (MisionPersonaje.mision_id r) (Mision.id mision)
                   then MisionPersonaje.set_mision_id None r else r)
              (misiones_personaje db)))
        "Misión eliminada" db
  end.

(** ** Character API (main.py 140-150) *)

Definition obtener_personajes : Handler (list Personaje.t) := fun db =>
  (db, Returned (personajes db)).

Definition crear_personaje (personaje : PersonajeCreate.t)
  : Handler Personaje.t := fun db =>
  let nuevo_personaje :=
    Personaje.mk (siguiente_id (map Personaje.id (personajes db)))
      (PersonajeCreate.nombre personaje) 0 in
  commit (mkSession (misiones db) (personajes db ++ [nuevo_personaje])
            (misiones_personaje db)) nuevo_personaje db.

(** ** POST /aceptar_mision (main.py 152-181) *)

Definition add_relacion (db : Session) (personaje_id mision_id orden : Z)
  : Session :=
  let nueva_relacion :=
    MisionPersonaje.mk
      (siguiente_id (map MisionPersonaje.id (misiones_personaje db)))
      personaje_id (Some mision_id) orden false in
  mkSession (misiones db) (personajes db)
    (misiones_personaje db ++ [nueva_relacion]).

Definition aceptar_mision (request : AceptarMisionRequest.t)
  : Handler string := fun db =>
  let personaje := query_personaje db (AceptarMisionRequest.personaje_id request) in
  let mision := query_mision db (AceptarMisionRequest.mision_id request) in
  match personaje with
  | None => raise 404 "Personaje no encontrado" db
  | Some _ =>
  match mision with
  | None => raise 404 "Misión no encontrada" db
  | Some _ =>
      let ya_asignada :=
        first (filter (pendiente_de_par (AceptarMisionRequest.personaje_id request)
                         (AceptarMisionRequest.mision_id request))
                 (misiones_personaje db)) in
      match ya_asignada with
      | Some _ => raise 400 "La misión ya fue aceptada por este personaje" db
      | None =>
          commit (add_relacion db (AceptarMisionRequest.personaje_id request)
                    (AceptarMisionRequest.mision_id request)
                    (AceptarMisionRequest.orden request))
            "Misión aceptada correctamente" db
      end
  end
  end.

(** ** POST /completar_mision (main.py 183-210) *)

Module CompletarMisionResponse.
Record t : Type := mk {
  mensaje : string;
  experiencia_ganada : Z;
  experiencia_total : Z
}.
End CompletarMisionResponse.

Definition completar_mision (request : CompletarMisionRequest.t)
  : Handler CompletarMisionResponse.t := fun db =>
  let mision := query_mision db (CompletarMisionRequest.mision_id request) in
  let personaje := query_personaje db (CompletarMisionRequest.personaje_id request) in
  let relacion :=
    first (order_by orden_asc
             (filter (pendiente_de_par (CompletarMisionRequest.personaje_id request)
                        (CompletarMisionRequest.mision_id request))
                (misiones_personaje db))) in
  match mision with
  | None => raise 404 "Misión no encontrada" db
  | Some mision =>
  match personaje with
  | None => raise 404 "Personaje no encontrado" db
  | Some personaje =>
  match relacion with
  | None => raise 400 "El personaje no tiene asignada esta misión" db
  | Some relacion =>
      if MisionPersonaje.estado relacion
      then raise 400 "La misión ya fue completada para este personaje" db
      else
        let personaje' :=
          Personaje.mk (Personaje.id personaje) (Personaje.nombre personaje)
            (Personaje.experiencia personaje + Mision.experiencia mision) in
        let relacion' := MisionPersonaje.set_estado true relacion in
        commit
          (mkSession (misiones db) (update_personaje personaje' (personajes db))
             (update_relacion relacion' (misiones_personaje db)))
          (CompletarMisionResponse.mk "Misión completada con éxito"
             (Mision.experiencia mision) (Personaje.experiencia personaje'))
          db
  end
  end
  end.

(** ** class ColaMisiones (main.py 213-268) *)

Module ColaMisiones.
(** [self.db] is the database the handlers thread. *)
Record t : Type := mk { personaje_id : Z }.

Module DequeueResponse.
Record t : Type := mk { mensaje : string; mision_id : option Z }.
End DequeueResponse.

Definition siguiente_orden (self : t) (db : Session) : Z :=
  let max_orden :=
    first (order_by orden_desc
             (filter (fun r => MisionPersonaje.personaje_id r =? personaje_id self)
                (misiones_personaje db))) in
  match max_orden with
  | Some max_orden => MisionPersonaje.orden max_orden + 1
  | None => 0
  end.

Definition enqueue (self : t) (mision_id : Z) : Handler string := fun db =>
  commit (add_relacion db (personaje_id self) mision_id (siguiente_orden self db))
    "Misión encolada correctamente" db.

(** The row both [dequeue] and [first] select. *)
Definition primera (self : t) (db : Session) : option MisionPersonaje.t :=
  first (order_by orden_asc
           (filter (pendiente_de (personaje_id self)) (misiones_personaje db))).

Definition dequeue (self : t) : Handler DequeueResponse.t := fun db =>
  match primera self db with
  | None => raise 404 "La cola está vacía" db
  | Some primera =>
      commit
        (mkSession (misiones db) (personajes db)
           (delete_relacion primera (misiones_personaje db)))
        (DequeueResponse.mk "Misión eliminada de la cola"
           (MisionPersonaje.mision_id primera)) db
  end.

Definition cantidad (self : t) (db : Session) : Z :=
  count (filter (pendiente_de (personaje_id self)) (misiones_personaje db)).

Definition is_empty (self : t) : Handler bool := fun db =>
  (db, Returned (cantidad self db =? 0)).

Definition size (self : t) : Handler Z := fun db =>
  (db, Returned (cantidad self db)).

(** [primera.mision] is [None] when the row has no quest. *)
Definition first (self : t) : Handler (option Mision.t) := fun db =>
  match primera self db with
  | None => raise 404 "La cola está vacía" db
  | Some primera => (db, Returned (relacion_mision db primera))
  end.
End ColaMisiones.

(** ** Queue routes (main.py 271-294) *)

Definition encolar_mision (personaje_id mision_id : Z) : Handler string :=
  let cola := ColaMisiones.mk personaje_id in
  ColaMisiones.enqueue cola mision_id.

Definition desencolar_mision (personaje_id : Z)
  : Handler ColaMisiones.DequeueResponse.t :=
  let cola := ColaMisiones.mk personaje_id in
  ColaMisiones.dequeue cola.

Definition ver_primera_mision (personaje_id : Z) : Handler (option Mision.t) :=
  let cola := ColaMisiones.mk personaje_id in
  ColaMisiones.first cola.

Definition cola_vacia (personaje_id : Z) : Handler bool :=
  let cola := ColaMisiones.mk personaje_id in
  ColaMisiones.is_empty cola.

Definition tamaño_cola (personaje_id : Z) : Handler Z :=
  let cola := ColaMisiones.mk personaje_id in
  ColaMisiones.size cola.

(** ** Reachable databases *)

(** The requests that write. *)
Inductive Request : Type :=
| POST_misiones (mision : MisionCreate.t) (utcnow : Z)
| PUT_misiones (id : Z) (descripcion : string)
| DELETE_misiones (id : Z)
| POST_personajes (personaje : PersonajeCreate.t)
| POST_aceptar_mision (request : AceptarMisionRequest.t)
| POST_completar_mision (request : CompletarMisionRequest.t)
| POST_cola_enqueue (personaje_id mision_id : Z)
| POST_cola_dequeue (personaje_id : Z).

Definition serve (req : Request) (db : Session) : Session :=
  match req with
  | POST_misiones mision utcnow => fst (crear_mision mision utcnow db)
  | PUT_misiones id descripcion => fst (actualizar_mision id descripcion db)
  | DELETE_misiones id => fst (eliminar_mision id db)
  | POST_personajes personaje => fst (crear_personaje personaje db)
  | POST_aceptar_mision request => fst (aceptar_mision request db)
  | POST_completar_mision request => fst (completar_mision request db)
  | POST_cola_enqueue personaje_id mision_id =>
      fst (encolar_mision personaje_id mision_id db)
  | POST_cola_dequeue personaje_id => fst (desencolar_mision personaje_id db)
  end.

(** Databases reached from the empty one by requests that satisfy [P]. *)
Inductive reachable_by (P : Request -> Prop) : Session -> Prop :=
| reachable_init : reachable_by P db_vacia
| reachable_serve db req :
    reachable_by P db -> P req -> reachable_by P (serve req db).

Definition reachable : Session -> Prop := reachable_by (fun _ => True).

Definition run (reqs : list Request) : Session :=
  fold_left (fun db req => serve req db) reqs db_vacia.

(** Primary keys are unique in each table. *)
Record wf (db : Session) : Prop := mk_wf {
  wf_misiones : NoDup (map Mision.id (misiones db));
  wf_personajes : NoDup (map Personaje.id (personajes db));
  wf_relaciones : NoDup (map MisionPersonaje.id (misiones_personaje db))
}.

(** The row [completar_mision] works on: the pending row of the pair with
    the least [orden] (the [relacion] query of main.py 187-191). *)
Definition relacion_a_completar (db : Session) (pid mid : Z)
  : option MisionPersonaje.t :=
  first (order_by orden_asc
           (filter (pendiente_de_par pid mid) (misiones_personaje db))).

(** The exceptions the claims name. *)
Definition ya_aceptada : HTTPException :=
  mkHTTPException 400 "La misión ya fue aceptada por este personaje".

Definition no_asignada : HTTPException :=
  mkHTTPException 400 "El personaje no tiene asignada esta misión".

Definition cola_vacia_404 : HTTPException :=
  mkHTTPException 404 "La cola está vacía".

(** ** Scenarios *)

Definition aria : PersonajeCreate.t := PersonajeCreate.mk "Aria".

Definition slay_dragon : MisionCreate.t :=
  MisionCreate.mk "Slay Dragon" "Slay the dragon" 50.

(** Aria and the quest exist; nothing is assigned. *)
Definition db_creada : Session :=
  run [POST_personajes aria; POST_misiones slay_dragon 0].

(** Aria has accepted the quest. *)
Definition db_aceptada : Session :=
  run [POST_personajes aria; POST_misiones slay_dragon 0;
       POST_aceptar_mision (AceptarMisionRequest.mk 1 1 0)].

(** The quest was enqueued twice for Aria: two pending rows of one pair. *)
Definition db_duplicada : Session :=
  run [POST_personajes aria; POST_misiones slay_dragon 0;
       POST_cola_enqueue 1 1; POST_cola_enqueue 1 1].

(** A second quest exists, and the first one is already in Aria's queue. *)
Definition db_en_cola : Session :=
  run [POST_personajes aria; POST_misiones slay_dragon 0;
       POST_misiones (MisionCreate.mk "Find Herbs" "Gather herbs" 10) 1;
       POST_cola_enqueue 1 1].

(** Aria's queue holds a quest id that no quest carries. *)
Definition db_huerfana : Session :=
  run [POST_personajes aria; POST_cola_enqueue 1 7].

(** Aria completed a quest whose reward is negative. *)
Definition db_negativa : Session :=
  run [POST_personajes aria;
       POST_misiones (MisionCreate.mk "Cursed Relic" "Carry the relic" (-5)) 0;
       POST_aceptar_mision (AceptarMisionRequest.mk 1 1 0);
       POST_completar_mision (CompletarMisionRequest.mk 1 1)].

(** Requests that create no quest with a negative reward. *)
Definition recompensa_no_negativa (req : Request) : Prop :=
  match req with
  | POST_misiones mision _ => 0 <= MisionCreate.experiencia mision
  | _ => True
  end.

(** The 404 of the quest routes and of the character check. *)
Definition mision_no_encontrada : HTTPException :=
  mkHTTPException 404 "Misión no encontrada".

Definition personaje_no_encontrado : HTTPException :=
  mkHTTPException 404 "Personaje no encontrado".

(** [mision.descripcion = descripcion] on a loaded quest. *)
Definition con_descripcion (descripcion : string) (mision : Mision.t) : Mision.t :=
  Mision.mk (Mision.id mision) (Mision.nombre mision) descripcion
    (Mision.experiencia mision) (Mision.fecha_creacion mision).

(** Aria has accepted two quests. *)
Definition db_dos_aceptadas : Session :=
  run [POST_personajes aria; POST_misiones slay_dragon 0;
       POST_misiones (MisionCreate.mk "Find Herbs" "Gather herbs" 10) 1;
       POST_aceptar_mision (AceptarMisionRequest.mk 1 1 0);
       POST_aceptar_mision (AceptarMisionRequest.mk 1 2 1)].

(** ** The queue as a list *)

(** The pending rows of a character in rowid order: what [filter_by
    (personaje_id, estado=False)] selects before any [order_by]. *)
Definition cola (personaje_id : Z) (db : Session) : list MisionPersonaje.t :=
  filter (pendiente_de personaje_id) (misiones_personaje db).

(** The rows of the queue were inserted in strictly increasing [orden]. *)
Definition cola_ordenada (personaje_id : Z) (db : Session) : Prop :=
  StronglySorted
    (fun a b => MisionPersonaje.orden a < MisionPersonaje.orden b)
    (cola personaje_id db).

(** POST /cola/{personaje_id}/enqueue once per quest id, in order. *)
Definition encolar_todas (personaje_id : Z) (mision_ids : list Z) (db : Session)
  : Session :=
  fold_left (fun db mision_id => fst (encolar_mision personaje_id mision_id db))
    mision_ids db.

(** POST /cola/{personaje_id}/dequeue [n] times, with what each one gave. *)
Fixpoint desencolar_n (personaje_id : Z) (n : nat) (db : Session)
  : Session * list (Outcome ColaMisiones.DequeueResponse.t) :=
  match n with
  | O => (db, [])
  | S n' =>
      let (db', r) := desencolar_mision personaje_id db in
      let (db'', rs) := desencolar_n personaje_id n' db' in
      (db'', r :: rs)
  end.

(** What [dequeue] returns for a row. *)
Definition desencolada (r : MisionPersonaje.t)
  : Outcome ColaMisiones.DequeueResponse.t :=
  Returned (ColaMisiones.DequeueResponse.mk "Misión eliminada de la cola"
              (MisionPersonaje.mision_id r)).

(** Requests other than the queue's [enqueue]. *)
Definition sin_enqueue (req : Request) : Prop :=
  match req with
  | POST_cola_enqueue _ _ => False
  | _ => True
  end.

(** ** Facts about the query combinators *)

Lemma first_filter_Some {A : Type} (f : A -> bool) (l : list A) (x : A) :
  first (filter f l) = Some x -> In x l /\ f x = true.
Proof.
  intros H. apply filter_In.
  destruct (filter f l) as [|y l'] eqn:E; simpl in H; [discriminate|].
  injection H as ->. now left.
Qed.

Lemma first_filter_None {A : Type} (f : A -> bool) (l : list A) :
  first (filter f l) = None <-> forall x, In x l -> f x = false.
Proof.
  split.
  - intros H x Hx. destruct (f x) eqn:E; [|reflexivity].
    assert (Hin : In x (filter f l)) by (apply filter_In; auto).
    destruct (filter f l); [destruct Hin | discriminate].
  - intros H. destruct (filter f l) as [|y l'] eqn:E; [reflexivity|].
    assert (Hy : In y (filter f l)) by (rewrite E; now left).
    apply filter_In in Hy as [Hy Hf]. rewrite (H y Hy) in Hf. discriminate.
Qed.

Lemma first_None {A : Type} (l : list A) : first l = None <-> l = [].
Proof. destruct l; simpl; split; congruence. Qed.

Section OrderByFacts.
Context {A : Type} (leb : A -> A -> bool).

Lemma insert_row_perm (r : A) (l : list A) :
  Permutation (insert_row leb r l) (r :: l).
Proof.
  induction l as [|x l IH]; simpl; [reflexivity|].
  destruct (leb r x); [reflexivity|].
  rewrite IH. apply perm_swap.
Qed.

Lemma order_by_perm (l : list A) : Permutation (order_by leb l) l.
Proof.
  induction l as [|x l IH]; simpl; [reflexivity|].
  rewrite insert_row_perm. now constructor.
Qed.

Lemma order_by_In (l : list A) (x : A) : In x (order_by leb l) <-> In x l.
Proof.
  split; apply Permutation_in;
    [apply order_by_perm | apply Permutation_sym, order_by_perm].
Qed.

Lemma order_by_length (l : list A) :
  List.length (order_by leb l) = List.length l.
Proof. apply Permutation_length, order_by_perm. Qed.

Lemma first_order_by_None (l : list A) :
  first (order_by leb l) = None <-> l = [].
Proof.
  rewrite first_None. split; intros H.
  - destruct l as [|x l]; [reflexivity|].
    apply (f_equal (@List.length A)) in H.
    rewrite order_by_length in H. discriminate.
  - subst. reflexivity.
Qed.

(** The head of the sorted list is an element that goes before every other
    one, when [leb] is total and transitive. *)
Lemma first_insert_row (r : A) (l : list A) :
  first (insert_row leb r l) =
  match first l with
  | Some x => if leb r x then Some r else Some x
  | None => Some r
  end.
Proof. destruct l as [|x l]; simpl; [reflexivity|]. now destruct (leb r x). Qed.

Hypothesis leb_total : forall a b, leb a b = true \/ leb b a = true.
Hypothesis leb_trans :
  forall a b c, leb a b = true -> leb b c = true -> leb a c = true.

Lemma first_order_by_least (l : list A) (r : A) :
  first (order_by leb l) = Some r ->
  In r l /\ forall x, In x l -> leb r x = true.
Proof.
  revert r. induction l as [|y l IH]; intros r; simpl; [discriminate|].
  rewrite first_insert_row.
  destruct (first (order_by leb l)) as [m|] eqn:E.
  - destruct (IH m eq_refl) as [Hm Hle].
    destruct (leb y m) eqn:Eym; intros [= <-].
    + split; [now left|]. intros x [<-|Hx].
      * destruct (leb_total y y); assumption.
      * eapply leb_trans; eauto.
    + split; [now right|]. intros x [<-|Hx]; [|auto].
      destruct (leb_total y m) as [H|H]; congruence.
  - intros [= <-]. apply first_order_by_None in E. subst l.
    split; [now left|]. intros x [<-|[]].
    destruct (leb_total y y); assumption.
Qed.

Lemma insert_row_sorted (r : A) (l : list A) :
  StronglySorted (fun a b => leb a b = true) l ->
  StronglySorted (fun a b => leb a b = true) (insert_row leb r l).
Proof.
  induction 1 as [|x l Hs IH Hx]; simpl.
  - repeat constructor.
  - destruct (leb r x) eqn:E.
    + constructor; [now constructor|]. constructor; [assumption|].
      rewrite Forall_forall in *. intros y Hy. eapply leb_trans; eauto.
    + constructor; [assumption|].
      rewrite Forall_forall in *. intros y Hy.
      apply (Permutation_in _ (insert_row_perm r l)) in Hy.
      destruct Hy as [<-|Hy]; [|auto].
      destruct (leb_total r x) as [H|H]; congruence.
Qed.

Lemma order_by_sorted (l : list A) :
  StronglySorted (fun a b => leb a b = true) (order_by leb l).
Proof.
  induction l as [|x l IH]; simpl; [constructor|].
  now apply insert_row_sorted.
Qed.
End OrderByFacts.

Lemma orden_asc_total a b : orden_asc a b = true \/ orden_asc b a = true.
Proof. unfold orden_asc. lia. Qed.

Lemma orden_asc_trans a b c :
  orden_asc a b = true -> orden_asc b c = true -> orden_asc a c = true.
Proof. unfold orden_asc. lia. Qed.

Lemma orden_desc_total a b : orden_desc a b = true \/ orden_desc b a = true.
Proof. unfold orden_desc. lia. Qed.

Lemma orden_desc_trans a b c :
  orden_desc a b = true -> orden_desc b c = true -> orden_desc a c = true.
Proof. unfold orden_desc. lia. Qed.

(** [order_by(orden.asc()).first()] is a row of least [orden]. *)
Lemma first_orden_asc (l : list MisionPersonaje.t) (r : MisionPersonaje.t) :
  first (order_by orden_asc l) = Some r ->
  In r l /\
  forall x, In x l -> MisionPersonaje.orden r <= MisionPersonaje.orden x.
Proof.
  intros H.
  destruct (first_order_by_least orden_asc orden_asc_total orden_asc_trans l r H)
    as [Hin Hle].
  split; [assumption|]. intros x Hx. specialize (Hle x Hx).
  unfold orden_asc in Hle. lia.
Qed.

(** [order_by(orden.desc()).first()] is a row of greatest [orden]. *)
Lemma first_orden_desc (l : list MisionPersonaje.t) (r : MisionPersonaje.t) :
  first (order_by orden_desc l) = Some r ->
  In r l /\
  forall x, In x l -> MisionPersonaje.orden x <= MisionPersonaje.orden r.
Proof.
  intros H.
  destruct (first_order_by_least orden_desc orden_desc_total orden_desc_trans l r H)
    as [Hin Hle].
  split; [assumption|]. intros x Hx. specialize (Hle x Hx).
  unfold orden_desc in Hle. lia.
Qed.

(** ** Primary keys *)

Lemma siguiente_id_fresh (ids : list Z) (x : Z) :
  In x ids -> x < siguiente_id ids.
Proof.
  unfold siguiente_id. induction ids as [|y ids IH]; simpl; [intros []|].
  intros [->|H]; [lia|]. specialize (IH H). lia.
Qed.

Lemma NoDup_app_fresh (ids : list Z) :
  NoDup ids -> NoDup (ids ++ [siguiente_id ids]).
Proof.
  intros H. apply NoDup_app; [assumption | repeat constructor; intros [] |].
  intros x Hx [<-|[]]. apply siguiente_id_fresh in Hx. lia.
Qed.

Lemma NoDup_map_filter {A : Type} (key : A -> Z) (f : A -> bool) (l : list A) :
  NoDup (map key l) -> NoDup (map key (filter f l)).
Proof.
  induction l as [|x l IH]; simpl; [auto|].
  intros H. inversion H as [|? ? Hx Hl]; subst.
  destruct (f x); simpl; [|auto].
  constructor; [|auto]. intros Hin. apply Hx.
  apply in_map_iff in Hin as [y [Hy Hin]]. apply filter_In in Hin as [Hin _].
  apply in_map_iff. eauto.
Qed.

Lemma map_key_update {A : Type} (key : A -> Z) (g : A -> A) (l : list A) :
  (forall x, key (g x) = key x) -> map key (map g l) = map key l.
Proof. intros H. rewrite map_map. apply map_ext. assumption. Qed.

(** In a table with unique keys a row is determined by its key. *)
Lemma NoDup_key_inj {A : Type} (key : A -> Z) (l : list A) (x y : A) :
  NoDup (map key l) -> In x l -> In y l -> key x = key y -> x = y.
Proof.
  induction l as [|z l IH]; simpl; [intros _ []|].
  intros H Hx Hy E. inversion H as [|? ? Hz Hl]; subst.
  destruct Hx as [->|Hx], Hy as [->|Hy]; auto.
  - exfalso. apply Hz. rewrite E. now apply in_map.
  - exfalso. apply Hz. rewrite <- E. now apply in_map.
Qed.

Lemma first_filter_map {A : Type} (f : A -> bool) (g : A -> A) (l : list A) :
  (forall x, f (g x) = f x) ->
  first (filter f (map g l)) = option_map g (first (filter f l)).
Proof.
  intros H. induction l as [|x l IH]; simpl; [reflexivity|].
  rewrite H. destruct (f x); simpl; auto.
Qed.

Lemma update_personaje_ids p' l :
  map Personaje.id (update_personaje p' l) = map Personaje.id l.
Proof.
  apply map_key_update. intros x.
  destruct (Z.eqb_spec (Personaje.id x) (Personaje.id p')); congruence.
Qed.

Lemma update_mision_ids m' l :
  map Mision.id (update_mision m' l) = map Mision.id l.
Proof.
  apply map_key_update. intros x.
  destruct (Z.eqb_spec (Mision.id x) (Mision.id m')); congruence.
Qed.

Lemma update_relacion_ids r' l :
  map MisionPersonaje.id (update_relacion r' l) = map MisionPersonaje.id l.
Proof.
  apply map_key_update. intros x.
  destruct (Z.eqb_spec (MisionPersonaje.id x) (MisionPersonaje.id r')); congruence.
Qed.

(** With unique keys, updating by key rewrites the one row and keeps the rest. *)
Lemma update_relacion_In r r' l x :
  NoDup (map MisionPersonaje.id l) -> In r l ->
  MisionPersonaje.id r' = MisionPersonaje.id r ->
  (In x (update_relacion r' l) <-> x = r' \/ (In x l /\ x <> r)).
Proof.
  intros Hnd Hr Hid. unfold update_relacion. rewrite in_map_iff. split.
  - intros [y [Hy Hin]].
    destruct (Z.eqb_spec (MisionPersonaje.id y) (MisionPersonaje.id r')) as [E|E].
    + left. congruence.
    + right. subst x. split; [assumption|]. intros ->. congruence.
  - intros [->|[Hx Hne]].
    + exists r. rewrite Hid, Z.eqb_refl. auto.
    + exists x. split; [|assumption].
      destruct (Z.eqb_spec (MisionPersonaje.id x) (MisionPersonaje.id r')) as [E|E];
        [|reflexivity].
      exfalso. apply Hne.
      apply (NoDup_key_inj MisionPersonaje.id l); congruence.
Qed.

(** With unique keys, deleting by key removes the one row. *)
Lemma delete_relacion_In r l x :
  NoDup (map MisionPersonaje.id l) -> In r l ->
  (In x (delete_relacion r l) <-> In x l /\ x <> r).
Proof.
  intros Hnd Hr. unfold delete_relacion. rewrite filter_In. split.
  - intros [Hx Hne]. split; [assumption|]. intros ->.
    rewrite Z.eqb_refl in Hne. discriminate.
  - intros [Hx Hne]. split; [assumption|].
    destruct (Z.eqb_spec (MisionPersonaje.id x) (MisionPersonaje.id r)) as [E|E];
      [|reflexivity].
    exfalso. apply Hne. apply (NoDup_key_inj MisionPersonaje.id l); assumption.
Qed.

(** ** Every request keeps the primary keys unique *)

Lemma add_relacion_wf db pid mid o : wf db -> wf (add_relacion db pid mid o).
Proof.
  intros [Hm Hp Hr]. constructor; simpl; try assumption.
  rewrite map_app. simpl. now apply NoDup_app_fresh.
Qed.

Lemma serve_wf req db : wf db -> wf (serve req db).
Proof.
  intros Hwf. pose proof Hwf as [Hm Hp Hr]. destruct req; simpl.
  - constructor; simpl; try assumption.
    rewrite map_app. simpl. now apply NoDup_app_fresh.
  - unfold actualizar_mision. destruct (query_mision db id); simpl; [|assumption].
    constructor; simpl; try assumption. now rewrite update_mision_ids.
  - unfold eliminar_mision. destruct (query_mision db id); simpl; [|assumption].
    constructor; simpl; try assumption.
    + now apply NoDup_map_filter.
    + rewrite map_key_update; [assumption|]. intros x.
      now destruct (option_Z_eqb _ _).
  - constructor; simpl; try assumption.
    rewrite map_app. simpl. now apply NoDup_app_fresh.
  - unfold aceptar_mision.
    destruct (query_personaje db _); simpl; [|assumption].
    destruct (query_mision db _); simpl; [|assumption].
    destruct (first _); simpl; [assumption|]. now apply add_relacion_wf.
  - unfold completar_mision.
    destruct (query_mision db _); simpl; [|assumption].
    destruct (query_personaje db _); simpl; [|assumption].
    destruct (first _) as [r|]; simpl; [|assumption].
    destruct (MisionPersonaje.estado r); simpl; [assumption|].
    constructor; simpl; try assumption.
    + now rewrite update_personaje_ids.
    + now rewrite update_relacion_ids.
  - now apply add_relacion_wf.
  - unfold desencolar_mision, ColaMisiones.dequeue.
    destruct (ColaMisiones.primera _ db); simpl; [|assumption].
    constructor; simpl; try assumption. now apply NoDup_map_filter.
Qed.

Lemma db_vacia_wf : wf db_vacia.
Proof. constructor; constructor. Qed.

Lemma reachable_by_wf P db : reachable_by P db -> wf db.
Proof.
  induction 1 as [|db req _ IH _]; [apply db_vacia_wf | now apply serve_wf].
Qed.

Lemma reachable_wf db : reachable db -> wf db.
Proof. apply reachable_by_wf. Qed.

Lemma reachable_by_run P reqs :
  Forall P reqs -> reachable_by P (run reqs).
Proof.
  unfold run. generalize (reachable_init P). generalize db_vacia.
  induction reqs as [|req reqs IH]; intros db Hdb Hall; simpl; [assumption|].
  inversion Hall; subst. apply IH; [|assumption]. now constructor.
Qed.

Lemma reachable_run reqs : reachable (run reqs).
Proof. apply reachable_by_run. apply Forall_forall. trivial. Qed.

(** ** completar_mision *)

Lemma pendiente_de_par_estado pid mid r :
  pendiente_de_par pid mid r = true ->
  MisionPersonaje.personaje_id r = pid /\
  MisionPersonaje.mision_id r = Some mid /\
  MisionPersonaje.estado r = false.
Proof.
  unfold pendiente_de_par, option_Z_eqb. intros H.
  apply andb_prop in H as [H He]. apply andb_prop in H as [Hp Hm].
  destruct (MisionPersonaje.mision_id r) as [m|]; [|discriminate].
  apply Z.eqb_eq in Hp, Hm. subst.
  destruct (MisionPersonaje.estado r); [discriminate | auto].
Qed.

Lemma relacion_a_completar_Some db pid mid :
  (exists r, In r (misiones_personaje db) /\ pendiente_de_par pid mid r = true) ->
  exists relacion, relacion_a_completar db pid mid = Some relacion.
Proof.
  intros [r [Hr Hp]]. unfold relacion_a_completar.
  destruct (first _) as [x|] eqn:E; [eauto|].
  apply first_order_by_None in E.
  assert (Hin : In r (filter (pendiente_de_par pid mid) (misiones_personaje db)))
    by (apply filter_In; auto).
  rewrite E in Hin. destruct Hin.
Qed.

Lemma relacion_a_completar_spec db pid mid relacion :
  relacion_a_completar db pid mid = Some relacion ->
  In relacion (misiones_personaje db) /\
  pendiente_de_par pid mid relacion = true /\
  forall r, In r (misiones_personaje db) -> pendiente_de_par pid mid r = true ->
            MisionPersonaje.orden relacion <= MisionPersonaje.orden r.
Proof.
  intros H. apply first_orden_asc in H as [Hin Hmin].
  apply filter_In in Hin as [Hin Hp]. repeat split; try assumption.
  intros r Hr Hpr. apply Hmin. apply filter_In. auto.
Qed.

Lemma relacion_a_completar_None db pid mid :
  relacion_a_completar db pid mid = None <->
  forall r, In r (misiones_personaje db) -> pendiente_de_par pid mid r = false.
Proof.
  unfold relacion_a_completar. rewrite first_order_by_None.
  rewrite <- first_filter_None. apply iff_sym, first_None.
Qed.

Lemma completar_mision_ok db request personaje mision relacion :
  query_personaje db (CompletarMisionRequest.personaje_id request) = Some personaje ->
  query_mision db (CompletarMisionRequest.mision_id request) = Some mision ->
  relacion_a_completar db (CompletarMisionRequest.personaje_id request)
    (CompletarMisionRequest.mision_id request) = Some relacion ->
  completar_mision request db =
  (mkSession (misiones db)
     (update_personaje
        (Personaje.mk (Personaje.id personaje) (Personaje.nombre personaje)
           (Personaje.experiencia personaje + Mision.experiencia mision))
        (personajes db))
     (update_relacion (MisionPersonaje.set_estado true relacion)
        (misiones_personaje db)),
   Returned (CompletarMisionResponse.mk "Misión completada con éxito"
               (Mision.experiencia mision)
               (Personaje.experiencia personaje + Mision.experiencia mision))).
Proof.
  intros Hp Hm Hr. pose proof (relacion_a_completar_spec _ _ _ _ Hr) as [_ [Hpend _]].
  apply pendiente_de_par_estado in Hpend as [_ [_ He]].
  unfold relacion_a_completar in Hr.
  unfold completar_mision. cbv zeta. rewrite Hp, Hm, Hr, He. reflexivity.
Qed.

Lemma completar_mision_sin_relacion db request personaje mision :
  query_personaje db (CompletarMisionRequest.personaje_id request) = Some personaje ->
  query_mision db (CompletarMisionRequest.mision_id request) = Some mision ->
  relacion_a_completar db (CompletarMisionRequest.personaje_id request)
    (CompletarMisionRequest.mision_id request) = None ->
  completar_mision request db =
  (db, Raised (mkHTTPException 400 "El personaje no tiene asignada esta misión")).
Proof.
  intros Hp Hm Hr. unfold relacion_a_completar in Hr.
  unfold completar_mision. cbv zeta. rewrite Hp, Hm, Hr. reflexivity.
Qed.

Lemma query_personaje_id db pid p :
  query_personaje db pid = Some p -> In p (personajes db) /\ Personaje.id p = pid.
Proof.
  intros H. apply first_filter_Some in H as [Hin Hid].
  apply Z.eqb_eq in Hid. auto.
Qed.

Lemma query_mision_id db mid m :
  query_mision db mid = Some m -> In m (misiones db) /\ Mision.id m = mid.
Proof.
  intros H. apply first_filter_Some in H as [Hin Hid].
  apply Z.eqb_eq in Hid. auto.
Qed.

(** Reading a character back after an update by key of the same character. *)
Lemma query_update_personaje_same db pid p p' ms rs :
  query_personaje db pid = Some p -> Personaje.id p' = pid ->
  query_personaje (mkSession ms (update_personaje p' (personajes db)) rs) pid
  = Some p'.
Proof.
  intros Hq Hid. pose proof (query_personaje_id _ _ _ Hq) as [_ Hp].
  unfold query_personaje in *. simpl. unfold update_personaje.
  rewrite first_filter_map.
  - rewrite Hq. simpl. rewrite Hp, Hid, Z.eqb_refl. reflexivity.
  - intros x. destruct (Z.eqb_spec (Personaje.id x) (Personaje.id p')); congruence.
Qed.

(** Reading any other character back after that update. *)
Lemma query_update_personaje_other db pid p' ms rs :
  Personaje.id p' <> pid ->
  query_personaje (mkSession ms (update_personaje p' (personajes db)) rs) pid
  = query_personaje db pid.
Proof.
  intros Hid. unfold query_personaje. simpl.
  induction (personajes db) as [|x l IH]; simpl; [reflexivity|].
  destruct (Z.eqb_spec (Personaje.id x) (Personaje.id p')) as [E|E].
  - destruct (Z.eqb_spec (Personaje.id p') pid); [contradiction|].
    destruct (Z.eqb_spec (Personaje.id x) pid); [congruence | assumption].
  - destruct (Personaje.id x =? pid); simpl; [reflexivity | assumption].
Qed.

(** C1. When the character and the quest of the request exist and the pair has
    a pending assignment, [completar_mision] returns (it raises nothing): the
    response carries the quest's reward as [experiencia_ganada] and the
    character's new total as [experiencia_total]; the character's stored
    experience is the old one plus the reward; the pending row of the pair
    with the least [orden] has its [estado] flipped to true, and no other row
    of [misiones_personaje] changes. *)
Theorem completar_mision_pendiente
  (db : Session) (request : CompletarMisionRequest.t)
  (personaje : Personaje.t) (mision : Mision.t) :
  wf db ->
  query_personaje db (CompletarMisionRequest.personaje_id request) = Some personaje ->
  query_mision db (CompletarMisionRequest.mision_id request) = Some mision ->
  (exists r, In r (misiones_personaje db) /\
             pendiente_de_par (CompletarMisionRequest.personaje_id request)
               (CompletarMisionRequest.mision_id request) r = true) ->
  let db' := fst (completar_mision request db) in
  exists relacion,
    In relacion (misiones_personaje db) /\
    pendiente_de_par (CompletarMisionRequest.personaje_id request)
      (CompletarMisionRequest.mision_id request) relacion = true /\
    (forall r, In r (misiones_personaje db) ->
               pendiente_de_par (CompletarMisionRequest.personaje_id request)
                 (CompletarMisionRequest.mision_id request) r = true ->
               MisionPersonaje.orden relacion <= MisionPersonaje.orden r) /\
    snd (completar_mision request db) =
      Returned (CompletarMisionResponse.mk "Misión completada con éxito"
                  (Mision.experiencia mision)
                  (Personaje.experiencia personaje + Mision.experiencia mision)) /\
    query_personaje db' (CompletarMisionRequest.personaje_id request) =
      Some (Personaje.mk (Personaje.id personaje) (Personaje.nombre personaje)
              (Personaje.experiencia personaje + Mision.experiencia mision)) /\
    (forall r, In r (misiones_personaje db') <->
               r = MisionPersonaje.set_estado true relacion \/
               (In r (misiones_personaje db) /\ r <> relacion)) /\
    misiones db' = misiones db.
Proof.
  intros Hwf Hp Hm Hex db'.
  destruct (relacion_a_completar_Some _ _ _ Hex) as [relacion Hr].
  pose proof (relacion_a_completar_spec _ _ _ _ Hr) as [Hin [Hpend Hmin]].
  pose proof (completar_mision_ok _ _ _ _ _ Hp Hm Hr) as Heq.
  exists relacion. subst db'. rewrite Heq. simpl.
  repeat split; try assumption.
  - apply (query_update_personaje_same db _ personaje); [assumption|].
    simpl. now apply query_personaje_id in Hp.
  - now apply update_relacion_In; [apply Hwf | |].
  - now apply update_relacion_In; [apply Hwf | |].
Qed.

Lemma completar_mision_pendiente_witness :
  snd (completar_mision (CompletarMisionRequest.mk 1 1) db_aceptada) =
    Returned (CompletarMisionResponse.mk "Misión completada con éxito" 50 50) /\
  query_personaje
    (fst (completar_mision (CompletarMisionRequest.mk 1 1) db_aceptada)) 1 =
    Some (Personaje.mk 1 "Aria" 50).
Proof.
  destruct (completar_mision_pendiente db_aceptada
              (CompletarMisionRequest.mk 1 1)
              (Personaje.mk 1 "Aria" 0)
              (Mision.mk 1 "Slay Dragon" "Slay the dragon" 50 0))
    as [relacion [_ [_ [_ [Hret [Hexp _]]]]]].
  - exact (reachable_wf _ (reachable_run _)).
  - reflexivity.
  - reflexivity.
  - exists (MisionPersonaje.mk 1 1 (Some 1) 0 false).
    split; [left; reflexivity | reflexivity].
  - split; [exact Hret | exact Hexp].
Defined.

(** ** aceptar_mision *)

Lemma pendiente_de_par_iff pid mid r :
  pendiente_de_par pid mid r = true <->
  MisionPersonaje.personaje_id r = pid /\
  MisionPersonaje.mision_id r = Some mid /\
  MisionPersonaje.estado r = false.
Proof.
  split; [apply pendiente_de_par_estado|].
  intros [Hp [Hm He]]. unfold pendiente_de_par, option_Z_eqb.
  rewrite Hp, Hm, He, !Z.eqb_refl. reflexivity.
Qed.

Lemma aceptar_mision_cases db request personaje mision :
  query_personaje db (AceptarMisionRequest.personaje_id request) = Some personaje ->
  query_mision db (AceptarMisionRequest.mision_id request) = Some mision ->
  aceptar_mision request db =
  match first (filter (pendiente_de_par (AceptarMisionRequest.personaje_id request)
                         (AceptarMisionRequest.mision_id request))
                 (misiones_personaje db)) with
  | Some _ => (db, Raised ya_aceptada)
  | None =>
      (add_relacion db (AceptarMisionRequest.personaje_id request)
         (AceptarMisionRequest.mision_id request)
         (AceptarMisionRequest.orden request),
       Returned "Misión aceptada correctamente")
  end.
Proof.
  intros Hp Hm. unfold aceptar_mision. cbv zeta. rewrite Hp, Hm.
  destruct (first _); reflexivity.
Qed.

Lemma first_filter_exists {A : Type} (f : A -> bool) (l : list A) :
  (exists x, first (filter f l) = Some x) <-> exists x, In x l /\ f x = true.
Proof.
  split.
  - intros [x H]. exists x. now apply first_filter_Some.
  - intros [x [Hin Hf]]. destruct (first (filter f l)) as [y|] eqn:E; [eauto|].
    rewrite first_filter_None in E. rewrite (E x Hin) in Hf. discriminate.
Qed.

(** C5. For an existing character and quest, [aceptar_mision] raises the 400
    "already accepted" conflict if and only if some row of the pair is
    pending; when every row of the pair is resolved it returns and inserts a
    pending row; and a second request for the same pair, served right after
    the first, raises the conflict. *)
Theorem aceptar_mision_conflicto
  (db : Session) (request : AceptarMisionRequest.t)
  (personaje : Personaje.t) (mision : Mision.t) :
  query_personaje db (AceptarMisionRequest.personaje_id request) = Some personaje ->
  query_mision db (AceptarMisionRequest.mision_id request) = Some mision ->
  (snd (aceptar_mision request db) = Raised ya_aceptada <->
   exists r, In r (misiones_personaje db) /\
             MisionPersonaje.personaje_id r = AceptarMisionRequest.personaje_id request /\
             MisionPersonaje.mision_id r = Some (AceptarMisionRequest.mision_id request) /\
             MisionPersonaje.estado r = false) /\
  ((forall r, In r (misiones_personaje db) ->
              MisionPersonaje.personaje_id r = AceptarMisionRequest.personaje_id request ->
              MisionPersonaje.mision_id r = Some (AceptarMisionRequest.mision_id request) ->
              MisionPersonaje.estado r = true) ->
   aceptar_mision request db =
   (add_relacion db (AceptarMisionRequest.personaje_id request)
      (AceptarMisionRequest.mision_id request) (AceptarMisionRequest.orden request),
    Returned "Misión aceptada correctamente")) /\
  (forall orden',
     snd (aceptar_mision
            (AceptarMisionRequest.mk (AceptarMisionRequest.personaje_id request)
               (AceptarMisionRequest.mision_id request) orden')
            (fst (aceptar_mision request db))) = Raised ya_aceptada).
Proof.
  intros Hp Hm. rewrite (aceptar_mision_cases _ _ _ _ Hp Hm).
  set (pid := AceptarMisionRequest.personaje_id request) in *.
  set (mid := AceptarMisionRequest.mision_id request) in *.
  split; [|split].
  - destruct (first _) as [x|] eqn:E; simpl.
    + split; [intros _|reflexivity].
      apply first_filter_Some in E as [Hin Hx].
      exists x. split; [assumption|]. now apply pendiente_de_par_iff.
    + split; [discriminate|]. intros [r [Hin Hr]].
      rewrite first_filter_None in E. apply pendiente_de_par_iff in Hr.
      rewrite (E r Hin) in Hr. discriminate.
  - intros Hres. destruct (first _) as [x|] eqn:E; [|reflexivity].
    apply first_filter_Some in E as [Hin Hx].
    apply pendiente_de_par_iff in Hx as [Hxp [Hxm Hxe]].
    rewrite (Hres x Hin Hxp Hxm) in Hxe. discriminate.
  - intros orden'.
    destruct (first _) as [x|] eqn:E; simpl.
    + rewrite (aceptar_mision_cases _ _ personaje mision); simpl;
        [|assumption|assumption].
      fold pid mid. now rewrite E.
    + rewrite (aceptar_mision_cases _ _ personaje mision); simpl;
        [|assumption|assumption].
      rewrite filter_app. simpl. unfold pendiente_de_par at 2. simpl.
      unfold option_Z_eqb. rewrite !Z.eqb_refl. simpl.
      destruct (filter _ (misiones_personaje db)); reflexivity.
Qed.

Lemma aceptar_mision_conflicto_witness :
  snd (aceptar_mision (AceptarMisionRequest.mk 1 1 5)
         (fst (aceptar_mision (AceptarMisionRequest.mk 1 1 0) db_creada)))
  = Raised ya_aceptada.
Proof.
  exact (proj2 (proj2
           (aceptar_mision_conflicto db_creada (AceptarMisionRequest.mk 1 1 0)
              (Personaje.mk 1 "Aria" 0)
              (Mision.mk 1 "Slay Dragon" "Slay the dragon" 50 0)
              eq_refl eq_refl)) 5).
Defined.

(** ** completar_mision without a pending row, and twice in a row *)

Lemma completar_mision_cases db request personaje mision :
  query_personaje db (CompletarMisionRequest.personaje_id request) = Some personaje ->
  query_mision db (CompletarMisionRequest.mision_id request) = Some mision ->
  (relacion_a_completar db (CompletarMisionRequest.personaje_id request)
     (CompletarMisionRequest.mision_id request) = None <->
   snd (completar_mision request db) = Raised no_asignada).
Proof.
  intros Hp Hm.
  destruct (relacion_a_completar db _ _) as [relacion|] eqn:E.
  - rewrite (completar_mision_ok _ _ _ _ _ Hp Hm E). simpl.
    split; discriminate.
  - rewrite (completar_mision_sin_relacion _ _ _ _ Hp Hm E). simpl.
    split; reflexivity.
Qed.

(** C8 as stated fails on the second call: with two pending rows of one pair
    (the quest enqueued twice), [completar_mision] returns twice in a row. *)
Lemma completar_mision_repetible :
  reachable db_duplicada /\
  snd (completar_mision (CompletarMisionRequest.mk 1 1) db_duplicada) =
    Returned (CompletarMisionResponse.mk "Misión completada con éxito" 50 50) /\
  snd (completar_mision (CompletarMisionRequest.mk 1 1)
         (fst (completar_mision (CompletarMisionRequest.mk 1 1) db_duplicada))) =
    Returned (CompletarMisionResponse.mk "Misión completada con éxito" 50 100) /\
  snd (completar_mision (CompletarMisionRequest.mk 1 1)
         (fst (completar_mision (CompletarMisionRequest.mk 1 1) db_duplicada))) <>
    Raised no_asignada.
Proof.
  split; [apply reachable_run | split; [reflexivity | split; [reflexivity|]]].
  discriminate.
Qed.

(** C8, amended. For an existing character and quest with no pending row of
    the pair, [completar_mision] raises the 400 "no assignment" error and
    leaves the database as it was. After a call that returned, the same
    request served right away raises that error exactly when the pair had a
    single pending row before the first call. *)
Theorem completar_mision_sin_pendiente
  (db : Session) (request : CompletarMisionRequest.t)
  (personaje : Personaje.t) (mision : Mision.t) :
  wf db ->
  query_personaje db (CompletarMisionRequest.personaje_id request) = Some personaje ->
  query_mision db (CompletarMisionRequest.mision_id request) = Some mision ->
  ((forall r, In r (misiones_personaje db) ->
              pendiente_de_par (CompletarMisionRequest.personaje_id request)
                (CompletarMisionRequest.mision_id request) r = false) ->
   completar_mision request db = (db, Raised no_asignada)) /\
  (forall response,
     snd (completar_mision request db) = Returned response ->
     (snd (completar_mision request (fst (completar_mision request db)))
      = Raised no_asignada <->
      forall r r', In r (misiones_personaje db) -> In r' (misiones_personaje db) ->
                   pendiente_de_par (CompletarMisionRequest.personaje_id request)
                     (CompletarMisionRequest.mision_id request) r = true ->
                   pendiente_de_par (CompletarMisionRequest.personaje_id request)
                     (CompletarMisionRequest.mision_id request) r' = true ->
                   r = r')).
Proof.
  intros Hwf Hp Hm.
  set (pid := CompletarMisionRequest.personaje_id request) in *.
  set (mid := CompletarMisionRequest.mision_id request) in *.
  split.
  - intros Hnone. apply (completar_mision_sin_relacion _ _ personaje mision);
      try assumption. now apply relacion_a_completar_None.
  - intros response Hret.
    destruct (relacion_a_completar db pid mid) as [relacion|] eqn:E.
    2:{ rewrite (completar_mision_sin_relacion _ _ _ _ Hp Hm E) in Hret.
        discriminate. }
    pose proof (relacion_a_completar_spec _ _ _ _ E) as [Hin [Hpend _]].
    rewrite (completar_mision_ok _ _ _ _ _ Hp Hm E). simpl.
    set (personaje' := Personaje.mk _ _ _).
    set (db' := mkSession _ _ _).
    assert (Hp' : query_personaje db' pid = Some personaje').
    { apply (query_update_personaje_same db pid personaje); [assumption|].
      simpl. now apply query_personaje_id in Hp. }
    assert (Hm' : query_mision db' mid = Some mision) by exact Hm.
    rewrite <- (completar_mision_cases db' request personaje' mision Hp' Hm').
    fold pid mid. rewrite relacion_a_completar_None. simpl.
    assert (Hupd := fun x =>
      update_relacion_In relacion (MisionPersonaje.set_estado true relacion)
        (misiones_personaje db) x (wf_relaciones db Hwf) Hin eq_refl).
    split.
    + intros Hnone.
      assert (Hone : forall r, In r (misiones_personaje db) ->
                               pendiente_de_par pid mid r = true -> r = relacion).
      { intros r Hr Hpr.
        destruct (Z.eq_dec (MisionPersonaje.id r) (MisionPersonaje.id relacion))
          as [Hid|Hid].
        - apply (NoDup_key_inj MisionPersonaje.id (misiones_personaje db));
            try assumption. apply Hwf.
        - assert (Hr' : In r (update_relacion
                                (MisionPersonaje.set_estado true relacion)
                                (misiones_personaje db))).
          { apply Hupd. right. split; [assumption|]. intros ->. now apply Hid. }
          rewrite (Hnone r Hr') in Hpr. discriminate. }
      intros r r' Hr Hr' Hpr Hpr'.
      rewrite (Hone r Hr Hpr), (Hone r' Hr' Hpr'). reflexivity.
    + intros Huniq r Hr. apply Hupd in Hr as [->|[Hr Hne]].
      * unfold pendiente_de_par. simpl. now rewrite andb_false_r.
      * destruct (pendiente_de_par pid mid r) eqn:Hpr; [|reflexivity].
        exfalso. apply Hne. now apply Huniq.
Qed.

Lemma completar_mision_sin_pendiente_witness :
  completar_mision (CompletarMisionRequest.mk 1 1) db_creada
  = (db_creada, Raised no_asignada) /\
  snd (completar_mision (CompletarMisionRequest.mk 1 1)
         (fst (completar_mision (CompletarMisionRequest.mk 1 1) db_aceptada)))
  = Raised no_asignada.
Proof.
  split.
  - apply (proj1 (completar_mision_sin_pendiente db_creada
                    (CompletarMisionRequest.mk 1 1)
                    (Personaje.mk 1 "Aria" 0)
                    (Mision.mk 1 "Slay Dragon" "Slay the dragon" 50 0)
                    (reachable_wf _ (reachable_run _)) eq_refl eq_refl)).
    intros r [].
  - apply (proj2 (completar_mision_sin_pendiente db_aceptada
                    (CompletarMisionRequest.mk 1 1)
                    (Personaje.mk 1 "Aria" 0)
                    (Mision.mk 1 "Slay Dragon" "Slay the dragon" 50 0)
                    (reachable_wf _ (reachable_run _)) eq_refl eq_refl)
             (CompletarMisionResponse.mk "Misión completada con éxito" 50 50)
             eq_refl).
    intros r r' [<-|[]] [<-|[]] _ _. reflexivity.
Defined.

(** ** ColaMisiones *)

Lemma pendiente_de_iff pid r :
  pendiente_de pid r = true <->
  MisionPersonaje.personaje_id r = pid /\ MisionPersonaje.estado r = false.
Proof.
  unfold pendiente_de. rewrite andb_true_iff, Z.eqb_eq, negb_true_iff. tauto.
Qed.

Lemma siguiente_orden_spec (self : ColaMisiones.t) (db : Session) :
  ((forall r, In r (misiones_personaje db) ->
              MisionPersonaje.personaje_id r <> ColaMisiones.personaje_id self) ->
   ColaMisiones.siguiente_orden self db = 0) /\
  (forall r, In r (misiones_personaje db) ->
             MisionPersonaje.personaje_id r = ColaMisiones.personaje_id self ->
             MisionPersonaje.orden r < ColaMisiones.siguiente_orden self db) /\
  (forall r0, In r0 (misiones_personaje db) ->
              MisionPersonaje.personaje_id r0 = ColaMisiones.personaje_id self ->
              exists r, In r (misiones_personaje db) /\
                        MisionPersonaje.personaje_id r = ColaMisiones.personaje_id self /\
                        ColaMisiones.siguiente_orden self db = MisionPersonaje.orden r + 1).
Proof.
  unfold ColaMisiones.siguiente_orden.
  set (filas := filter _ (misiones_personaje db)).
  assert (Hfilas : forall r, In r filas <->
                             In r (misiones_personaje db) /\
                             MisionPersonaje.personaje_id r = ColaMisiones.personaje_id self).
  { intros r. unfold filas. rewrite filter_In, Z.eqb_eq. tauto. }
  destruct (first (order_by orden_desc filas)) as [m|] eqn:E.
  - apply first_orden_desc in E as [Hm Hmax]. apply Hfilas in Hm as [Hm Hmp].
    split; [|split].
    + intros Hnone. destruct (Hnone m Hm Hmp).
    + intros r Hr Hrp. specialize (Hmax r (proj2 (Hfilas r) (conj Hr Hrp))). lia.
    + intros _ _ _. exists m. auto.
  - apply first_order_by_None in E. split; [reflexivity|]. split.
    + intros r Hr Hrp. pose proof (proj2 (Hfilas r) (conj Hr Hrp)) as Hin.
      rewrite E in Hin. destruct Hin.
    + intros r Hr Hrp. pose proof (proj2 (Hfilas r) (conj Hr Hrp)) as Hin.
      rewrite E in Hin. destruct Hin.
Qed.

(** C6. [enqueue] always returns, whatever rows exist (it checks neither a
    pending duplicate nor anything else), and appends one pending row for the
    given character and quest. The row's [orden] is 0 when the character has
    no row at all; otherwise it is one more than the [orden] of one of the
    character's rows and greater than the [orden] of each of them, resolved
    rows included: the maximum plus 1. *)
Theorem enqueue_siguiente_orden (db : Session) (personaje_id mision_id : Z) :
  exists nueva,
    ColaMisiones.enqueue (ColaMisiones.mk personaje_id) mision_id db =
      (mkSession (misiones db) (personajes db) (misiones_personaje db ++ [nueva]),
       Returned "Misión encolada correctamente") /\
    MisionPersonaje.personaje_id nueva = personaje_id /\
    MisionPersonaje.mision_id nueva = Some mision_id /\
    MisionPersonaje.estado nueva = false /\
    ((forall r, In r (misiones_personaje db) ->
                MisionPersonaje.personaje_id r <> personaje_id) ->
     MisionPersonaje.orden nueva = 0) /\
    (forall r, In r (misiones_personaje db) ->
               MisionPersonaje.personaje_id r = personaje_id ->
               MisionPersonaje.orden r < MisionPersonaje.orden nueva) /\
    (forall r0, In r0 (misiones_personaje db) ->
                MisionPersonaje.personaje_id r0 = personaje_id ->
                exists r, In r (misiones_personaje db) /\
                          MisionPersonaje.personaje_id r = personaje_id /\
                          MisionPersonaje.orden nueva = MisionPersonaje.orden r + 1).
Proof.
  eexists. split; [reflexivity|]. simpl.
  repeat (split; [reflexivity|]).
  exact (siguiente_orden_spec (ColaMisiones.mk personaje_id) db).
Qed.

(** C10. The queue routes look up neither the character nor the quest.
    Whatever the database holds, [encolar_mision] returns its success message
    and appends a row that carries the two ids as given, and [cola_vacia] and
    [tamaño_cola] return (they raise nothing) with the number of pending rows
    that carry the character id; with no such row, as for a character that
    does not exist and was never enqueued for, that is "empty" and 0. *)
Theorem cola_sin_validacion (db : Session) (personaje_id mision_id : Z) :
  (exists nueva,
     encolar_mision personaje_id mision_id db =
       (mkSession (misiones db) (personajes db) (misiones_personaje db ++ [nueva]),
        Returned "Misión encolada correctamente") /\
     MisionPersonaje.personaje_id nueva = personaje_id /\
     MisionPersonaje.mision_id nueva = Some mision_id) /\
  cola_vacia personaje_id db =
    (db, Returned
           (count (filter (pendiente_de personaje_id) (misiones_personaje db)) =? 0)) /\
  tamaño_cola personaje_id db =
    (db, Returned (count (filter (pendiente_de personaje_id) (misiones_personaje db)))) /\
  ((forall r, In r (misiones_personaje db) ->
              MisionPersonaje.personaje_id r <> personaje_id) ->
   cola_vacia personaje_id db = (db, Returned true) /\
   tamaño_cola personaje_id db = (db, Returned 0)).
Proof.
  split; [|split; [reflexivity | split; [reflexivity|]]].
  - eexists. split; [reflexivity|]. simpl. auto.
  - intros Hnone. unfold cola_vacia, tamaño_cola, ColaMisiones.is_empty,
      ColaMisiones.size, ColaMisiones.cantidad. simpl.
    assert (E : filter (pendiente_de personaje_id) (misiones_personaje db) = []).
    { apply first_None. apply first_filter_None. intros r Hr.
      unfold pendiente_de.
      destruct (Z.eqb_spec (MisionPersonaje.personaje_id r) personaje_id) as [H|H];
        [destruct (Hnone r Hr H) | reflexivity]. }
    rewrite E. split; reflexivity.
Qed.

(** A row appended with an [orden] no smaller than every other one is
    selected by [order_by(orden.asc()).first()] only when it is alone. *)
Lemma first_orden_asc_app (l : list MisionPersonaje.t) (n : MisionPersonaje.t) :
  (forall r, In r l -> MisionPersonaje.orden r <= MisionPersonaje.orden n) ->
  first (order_by orden_asc (l ++ [n])) =
  match first (order_by orden_asc l) with
  | Some r => Some r
  | None => Some n
  end.
Proof.
  induction l as [|x l IH]; intros Hle; [reflexivity|].
  simpl. rewrite !first_insert_row, IH by (intros r Hr; apply Hle; now right).
  destruct (first (order_by orden_asc l)) as [r|] eqn:E;
    [now destruct (orden_asc x r)|].
  unfold orden_asc. specialize (Hle x (or_introl eq_refl)).
  destruct (Z.leb_spec (MisionPersonaje.orden x) (MisionPersonaje.orden n));
    [reflexivity | lia].
Qed.

Lemma primera_None (self : ColaMisiones.t) (db : Session) :
  ColaMisiones.primera self db = None <->
  forall r, In r (misiones_personaje db) ->
            pendiente_de (ColaMisiones.personaje_id self) r = false.
Proof.
  unfold ColaMisiones.primera. rewrite first_order_by_None.
  rewrite <- first_filter_None. apply iff_sym, first_None.
Qed.

Lemma primera_Some (self : ColaMisiones.t) (db : Session) (r : MisionPersonaje.t) :
  ColaMisiones.primera self db = Some r ->
  In r (misiones_personaje db) /\
  pendiente_de (ColaMisiones.personaje_id self) r = true /\
  forall x, In x (misiones_personaje db) ->
            pendiente_de (ColaMisiones.personaje_id self) x = true ->
            MisionPersonaje.orden r <= MisionPersonaje.orden x.
Proof.
  intros H. apply first_orden_asc in H as [Hin Hmin].
  apply filter_In in Hin as [Hin Hp]. repeat split; try assumption.
  intros x Hx Hpx. apply Hmin. apply filter_In. auto.
Qed.

Lemma primera_enqueue (self : ColaMisiones.t) (db : Session) (mision_id : Z) :
  ColaMisiones.primera self (fst (ColaMisiones.enqueue self mision_id db)) =
  match ColaMisiones.primera self db with
  | Some r => Some r
  | None =>
      Some (MisionPersonaje.mk
              (siguiente_id (map MisionPersonaje.id (misiones_personaje db)))
              (ColaMisiones.personaje_id self) (Some mision_id)
              (ColaMisiones.siguiente_orden self db) false)
  end.
Proof.
  unfold ColaMisiones.primera. simpl. rewrite filter_app. simpl.
  unfold pendiente_de at 2. simpl. rewrite Z.eqb_refl. simpl.
  apply first_orden_asc_app. intros r Hr. simpl.
  apply filter_In in Hr as [Hr Hp]. apply pendiente_de_iff in Hp as [Hp _].
  pose proof (proj1 (proj2 (siguiente_orden_spec self db)) r Hr Hp). lia.
Qed.

(** C4 as stated fails: with a quest already waiting in the character's
    queue, enqueueing quest 2 and dequeueing right away hands back quest 1. *)
Lemma enqueue_dequeue_otra_mision :
  reachable db_en_cola /\
  snd (desencolar_mision 1 (fst (encolar_mision 1 2 db_en_cola))) =
    Returned (ColaMisiones.DequeueResponse.mk "Misión eliminada de la cola" (Some 1)) /\
  snd (desencolar_mision 1 (fst (encolar_mision 1 2 db_en_cola))) <>
    Returned (ColaMisiones.DequeueResponse.mk "Misión eliminada de la cola" (Some 2)).
Proof.
  split; [apply reachable_run | split; [reflexivity | discriminate]].
Qed.

(** C4, amended. [enqueue] followed at once by [dequeue] for the same
    character returns the enqueued quest id when the character had no pending
    row before the [enqueue]; when it had one, [dequeue] returns the quest id
    of the row that was first in the queue before the [enqueue]. *)
Theorem enqueue_dequeue (db : Session) (personaje_id mision_id : Z) :
  snd (desencolar_mision personaje_id (fst (encolar_mision personaje_id mision_id db)))
  = Returned
      (ColaMisiones.DequeueResponse.mk "Misión eliminada de la cola"
         match ColaMisiones.primera (ColaMisiones.mk personaje_id) db with
         | Some primera => MisionPersonaje.mision_id primera
         | None => Some mision_id
         end) /\
  (ColaMisiones.primera (ColaMisiones.mk personaje_id) db = None <->
   forall r, In r (misiones_personaje db) -> pendiente_de personaje_id r = false).
Proof.
  split; [|apply (primera_None (ColaMisiones.mk personaje_id))].
  unfold desencolar_mision, encolar_mision, ColaMisiones.dequeue. cbv zeta.
  rewrite primera_enqueue.
  destruct (ColaMisiones.primera (ColaMisiones.mk personaje_id) db); reflexivity.
Qed.

(** ** dequeue *)

(** C7. [dequeue] raises the 404 "La cola está vacía" and changes nothing
    when the character has no pending row. Otherwise it returns the
    [mision_id] of a pending row of the character whose [orden] is least
    among the character's pending rows, that row and no other is gone from
    [misiones_personaje], and the [personajes] table, hence every experience,
    is as before. *)
Theorem dequeue_primera (db : Session) (personaje_id : Z) :
  wf db ->
  ((forall r, In r (misiones_personaje db) -> pendiente_de personaje_id r = false) ->
   desencolar_mision personaje_id db = (db, Raised cola_vacia_404)) /\
  ((exists r, In r (misiones_personaje db) /\ pendiente_de personaje_id r = true) ->
   exists primera,
     In primera (misiones_personaje db) /\
     pendiente_de personaje_id primera = true /\
     (forall r, In r (misiones_personaje db) -> pendiente_de personaje_id r = true ->
                MisionPersonaje.orden primera <= MisionPersonaje.orden r) /\
     snd (desencolar_mision personaje_id db) =
       Returned (ColaMisiones.DequeueResponse.mk "Misión eliminada de la cola"
                   (MisionPersonaje.mision_id primera)) /\
     (forall r, In r (misiones_personaje (fst (desencolar_mision personaje_id db))) <->
                In r (misiones_personaje db) /\ r <> primera) /\
     misiones (fst (desencolar_mision personaje_id db)) = misiones db) /\
  personajes (fst (desencolar_mision personaje_id db)) = personajes db.
Proof.
  intros Hwf. unfold desencolar_mision, ColaMisiones.dequeue. cbv zeta.
  destruct (ColaMisiones.primera (ColaMisiones.mk personaje_id) db)
    as [primera|] eqn:E.
  - apply primera_Some in E as [Hin [Hp Hmin]]. simpl in Hp, Hmin.
    split; [|split; [|reflexivity]].
    + intros Hnone. rewrite (Hnone primera Hin) in Hp. discriminate.
    + intros _. exists primera. simpl.
      split; [assumption|]. split; [assumption|]. split; [assumption|].
      split; [reflexivity|]. split; [|reflexivity].
      intros r. apply delete_relacion_In; [apply Hwf | assumption].
  - rewrite primera_None in E. simpl in E.
    split; [|split; [|reflexivity]].
    + reflexivity.
    + intros [r [Hr Hp]]. rewrite (E r Hr) in Hp. discriminate.
Qed.

Lemma dequeue_primera_witness :
  desencolar_mision 1 db_creada = (db_creada, Raised cola_vacia_404) /\
  snd (desencolar_mision 1 db_aceptada) =
    Returned (ColaMisiones.DequeueResponse.mk "Misión eliminada de la cola" (Some 1)).
Proof.
  split.
  - apply (proj1 (dequeue_primera db_creada 1 (reachable_wf _ (reachable_run _)))).
    intros r [].
  - destruct (proj1 (proj2 (dequeue_primera db_aceptada 1
                              (reachable_wf _ (reachable_run _)))))
      as [primera [Hin [_ [_ [Hret _]]]]].
    + exists (MisionPersonaje.mk 1 1 (Some 1) 0 false).
      split; [left; reflexivity | reflexivity].
    + destruct Hin as [<-|[]]. exact Hret.
Defined.

(** ** obtener_misiones_por_personaje *)

(** C2, the code at a character id that no row carries: the 404 raised in
    the [try] is caught by [except Exception] and the request fails with
    status 500, whatever text [str] gives the caught exception. *)
Theorem obtener_misiones_personaje_ausente (str : HTTPException -> string) :
  obtener_misiones_por_personaje str 1 db_vacia =
  (db_vacia,
   Raised (mkHTTPException 500
             (String.append "Error interno: "
                (str (mkHTTPException 404 "Personaje no encontrado"))))).
Proof. reflexivity. Qed.

Lemma obtener_misiones_sin_personaje str db pid :
  query_personaje db pid = None ->
  exists e, obtener_misiones_por_personaje str pid db = (db, Raised e) /\
            status_code e = 500.
Proof.
  intros H. unfold obtener_misiones_por_personaje,
    obtener_misiones_por_personaje_try. rewrite H. simpl. eauto.
Qed.

Lemma filter_filter_andb {A : Type} (f g : A -> bool) (l : list A) :
  filter f (filter g l) = filter (fun x => f x && g x) l.
Proof.
  induction l as [|x l IH]; simpl; [reflexivity|].
  destruct (g x); simpl; rewrite ?andb_true_r, ?andb_false_r;
    [destruct (f x)|]; now rewrite IH.
Qed.

Lemma flat_map_join db (l : list MisionPersonaje.t) :
  (forall r, In r l -> join_Mision db r = true) ->
  Forall2 (fun r m => relacion_mision db r = Some m) l
    (flat_map (fun relacion =>
                 match relacion_mision db relacion with
                 | Some m => [m]
                 | None => []
                 end) l).
Proof.
  induction l as [|x l IH]; intros H; simpl; [constructor|].
  pose proof (H x (or_introl eq_refl)) as Hx. unfold join_Mision in Hx.
  destruct (relacion_mision db x) as [m|] eqn:E; [|discriminate].
  simpl. constructor; [assumption|]. apply IH. intros r Hr. apply H. now right.
Qed.

(** For a character that exists the route returns, in ascending [orden], the
    quest of each pending row of the character that has one. *)
Lemma obtener_misiones_existente str db pid p :
  query_personaje db pid = Some p ->
  exists relaciones misiones,
    obtener_misiones_por_personaje str pid db = (db, Returned misiones) /\
    Permutation relaciones
      (filter (fun r => pendiente_de pid r && join_Mision db r)
         (misiones_personaje db)) /\
    StronglySorted
      (fun a b => MisionPersonaje.orden a <= MisionPersonaje.orden b) relaciones /\
    Forall2 (fun r m => relacion_mision db r = Some m) relaciones misiones.
Proof.
  intros Hp. unfold obtener_misiones_por_personaje,
    obtener_misiones_por_personaje_try. rewrite Hp. cbv zeta.
  rewrite filter_filter_andb.
  set (filas := filter _ (misiones_personaje db)).
  exists (order_by orden_asc filas). eexists.
  split; [reflexivity|]. split; [apply order_by_perm|]. split.
  - pose proof (order_by_sorted orden_asc orden_asc_total orden_asc_trans filas) as Hs.
    induction Hs as [|x l Hs IH Hx]; constructor; [assumption|].
    rewrite Forall_forall in *. intros y Hy. specialize (Hx y Hy).
    unfold orden_asc in Hx. lia.
  - apply flat_map_join. intros r Hr. apply order_by_In in Hr.
    apply filter_In in Hr as [_ Hr]. now apply andb_prop in Hr.
Qed.

Lemma filter_andb_length {A : Type} (f g : A -> bool) (l : list A) :
  (List.length (filter (fun x => f x && g x) l) <= List.length (filter f l))%nat /\
  (List.length (filter (fun x => f x && g x) l) = List.length (filter f l) <->
   forall x, In x l -> f x = true -> g x = true).
Proof.
  induction l as [|x l [IHle IHeq]]; simpl.
  - split; [lia|]. split; [intros _ x []|reflexivity].
  - destruct (f x) eqn:Ef, (g x) eqn:Eg; simpl.
    + split; [lia|]. rewrite Nat.succ_inj_wd, IHeq. split.
      * intros H y [<-|Hy]; auto.
      * intros H y Hy. apply H. now right.
    + split; [lia|]. split; [lia|].
      intros H. specialize (H x (or_introl eq_refl) Ef). congruence.
    + split; [assumption|]. rewrite IHeq. split.
      * intros H y [<-|Hy]; [congruence | auto].
      * intros H y Hy. apply H. now right.
    + split; [assumption|]. rewrite IHeq. split.
      * intros H y [<-|Hy]; [congruence | auto].
      * intros H y Hy. apply H. now right.
Qed.

(** C3 as stated fails: after enqueueing a quest id that no quest carries,
    the queue of the (existing) character has size 1 and the character's
    list of active quests is empty. *)
Lemma tamano_cola_distinto_de_activas :
  reachable db_huerfana /\
  tamaño_cola 1 db_huerfana = (db_huerfana, Returned 1) /\
  (forall str,
     obtener_misiones_por_personaje str 1 db_huerfana = (db_huerfana, Returned [])).
Proof.
  split; [apply reachable_run | split; [reflexivity | intros str; reflexivity]].
Qed.

(** C3, amended. In every database, reachable ones included, the size of a
    character's queue is the number of its pending rows. For a character
    that exists the list of active quests has one quest per pending row that
    has a quest: its length is the number of those rows, at most the size of
    the queue, and equal to it exactly when every pending row of the
    character has a quest. *)
Theorem tamano_cola_y_misiones_activas
  (str : HTTPException -> string) (db : Session) (personaje_id : Z) :
  tamaño_cola personaje_id db =
    (db, Returned (count (filter (pendiente_de personaje_id) (misiones_personaje db)))) /\
  (forall personaje,
     query_personaje db personaje_id = Some personaje ->
     exists misiones,
       obtener_misiones_por_personaje str personaje_id db = (db, Returned misiones) /\
       count misiones =
         count (filter (fun r => pendiente_de personaje_id r && join_Mision db r)
                  (misiones_personaje db)) /\
       count misiones <=
         count (filter (pendiente_de personaje_id) (misiones_personaje db)) /\
       (count misiones =
          count (filter (pendiente_de personaje_id) (misiones_personaje db)) <->
        forall r, In r (misiones_personaje db) ->
                  pendiente_de personaje_id r = true ->
                  exists mision, relacion_mision db r = Some mision)).
Proof.
  split; [reflexivity|]. intros personaje Hp.
  destruct (obtener_misiones_existente str db personaje_id personaje Hp)
    as [relaciones [misiones [Heq [Hperm [_ Hall]]]]].
  exists misiones. split; [assumption|].
  assert (Hlen : List.length misiones =
                 List.length (filter (fun r => pendiente_de personaje_id r
                                               && join_Mision db r)
                                (misiones_personaje db))).
  { rewrite <- (Forall2_length Hall). now apply Permutation_length. }
  destruct (filter_andb_length (pendiente_de personaje_id) (join_Mision db)
              (misiones_personaje db)) as [Hle Hiff].
  unfold count. rewrite Hlen. split; [reflexivity|]. split; [lia|].
  rewrite Nat2Z.inj_iff, Hiff. split; intros H r Hr Hpr.
  - specialize (H r Hr Hpr). unfold join_Mision in H.
    destruct (relacion_mision db r); [eauto | discriminate].
  - destruct (H r Hr Hpr) as [m Hm]. unfold join_Mision. now rewrite Hm.
Qed.

Lemma tamano_cola_y_misiones_activas_witness :
  exists misiones,
    obtener_misiones_por_personaje detail 1 db_aceptada = (db_aceptada, Returned misiones) /\
    count misiones = 1 /\
    tamaño_cola 1 db_aceptada = (db_aceptada, Returned 1).
Proof.
  destruct (tamano_cola_y_misiones_activas detail db_aceptada 1) as [Hsize Hlist].
  destruct (Hlist (Personaje.mk 1 "Aria" 0) eq_refl)
    as [misiones [Heq [Hcount _]]].
  exists misiones. split; [exact Heq|]. split; [exact Hcount | exact Hsize].
Defined.

(** ** Experience *)

Lemma query_personaje_ext db1 db2 pid :
  personajes db1 = personajes db2 ->
  query_personaje db1 pid = query_personaje db2 pid.
Proof. unfold query_personaje. now intros ->. Qed.

Lemma personajes_actualizar_mision id descripcion db :
  personajes (fst (actualizar_mision id descripcion db)) = personajes db.
Proof. unfold actualizar_mision. now destruct (query_mision db id). Qed.

Lemma personajes_eliminar_mision id db :
  personajes (fst (eliminar_mision id db)) = personajes db.
Proof. unfold eliminar_mision. now destruct (query_mision db id). Qed.

Lemma personajes_aceptar_mision request db :
  personajes (fst (aceptar_mision request db)) = personajes db.
Proof.
  unfold aceptar_mision. cbv zeta.
  destruct (query_personaje db _); [|reflexivity].
  destruct (query_mision db _); [|reflexivity].
  now destruct (first _).
Qed.

Lemma personajes_desencolar_mision pid db :
  personajes (fst (desencolar_mision pid db)) = personajes db.
Proof.
  unfold desencolar_mision, ColaMisiones.dequeue. cbv zeta.
  now destruct (ColaMisiones.primera _ db).
Qed.

Lemma misiones_aceptar_mision request db :
  misiones (fst (aceptar_mision request db)) = misiones db.
Proof.
  unfold aceptar_mision. cbv zeta.
  destruct (query_personaje db _); [|reflexivity].
  destruct (query_mision db _); [|reflexivity].
  now destruct (first _).
Qed.

Lemma misiones_desencolar_mision pid db :
  misiones (fst (desencolar_mision pid db)) = misiones db.
Proof.
  unfold desencolar_mision, ColaMisiones.dequeue. cbv zeta.
  now destruct (ColaMisiones.primera _ db).
Qed.

(** What [completar_mision] does, by the three queries it starts with. *)
Lemma completar_mision_por_casos request db :
  match query_mision db (CompletarMisionRequest.mision_id request),
        query_personaje db (CompletarMisionRequest.personaje_id request),
        relacion_a_completar db (CompletarMisionRequest.personaje_id request)
          (CompletarMisionRequest.mision_id request) with
  | Some mision, Some personaje, Some relacion =>
      completar_mision request db =
      (mkSession (misiones db)
         (update_personaje
            (Personaje.mk (Personaje.id personaje) (Personaje.nombre personaje)
               (Personaje.experiencia personaje + Mision.experiencia mision))
            (personajes db))
         (update_relacion (MisionPersonaje.set_estado true relacion)
            (misiones_personaje db)),
       Returned (CompletarMisionResponse.mk "Misión completada con éxito"
                   (Mision.experiencia mision)
                   (Personaje.experiencia personaje + Mision.experiencia mision)))
  | _, _, _ => exists e, completar_mision request db = (db, Raised e)
  end.
Proof.
  destruct (query_mision db _) as [mision|] eqn:Hm.
  - destruct (query_personaje db _) as [personaje|] eqn:Hp.
    + destruct (relacion_a_completar db _ _) as [relacion|] eqn:Hr.
      * now apply completar_mision_ok.
      * rewrite (completar_mision_sin_relacion _ _ _ _ Hp Hm Hr). eauto.
    + unfold completar_mision. cbv zeta. rewrite Hm, Hp. unfold raise. eauto.
  - unfold completar_mision. cbv zeta. rewrite Hm. unfold raise. eauto.
Qed.

Lemma query_personaje_app db pid p ms nuevo rs :
  query_personaje db pid = Some p ->
  query_personaje (mkSession ms (personajes db ++ [nuevo]) rs) pid = Some p.
Proof.
  unfold query_personaje. simpl. rewrite filter_app.
  destruct (filter _ (personajes db)); simpl; [discriminate | auto].
Qed.

(** A request changes the stored experience of an existing character only
    when it is a [completar_mision] for that character that returns, and then
    by the reward of the request's quest. *)
Lemma serve_experiencia req db pid p :
  query_personaje db pid = Some p ->
  exists p',
    query_personaje (serve req db) pid = Some p' /\
    (Personaje.experiencia p' = Personaje.experiencia p \/
     exists request mision response,
       req = POST_completar_mision request /\
       CompletarMisionRequest.personaje_id request = pid /\
       query_mision db (CompletarMisionRequest.mision_id request) = Some mision /\
       snd (completar_mision request db) = Returned response /\
       Personaje.experiencia p' =
         Personaje.experiencia p + Mision.experiencia mision).
Proof.
  intros Hq.
  assert (Hsame : forall db', personajes db' = personajes db ->
            exists p', query_personaje db' pid = Some p' /\
              (Personaje.experiencia p' = Personaje.experiencia p \/
               exists request mision response,
                 req = POST_completar_mision request /\
                 CompletarMisionRequest.personaje_id request = pid /\
                 query_mision db (CompletarMisionRequest.mision_id request)
                   = Some mision /\
                 snd (completar_mision request db) = Returned response /\
                 Personaje.experiencia p' =
                   Personaje.experiencia p + Mision.experiencia mision)).
  { intros db' E. exists p. split; [|now left].
    now rewrite (query_personaje_ext db' db pid E). }
  destruct req; simpl.
  - now apply Hsame.
  - apply Hsame, personajes_actualizar_mision.
  - apply Hsame, personajes_eliminar_mision.
  - exists p. split; [|now left]. now apply query_personaje_app.
  - apply Hsame, personajes_aceptar_mision.
  - pose proof (completar_mision_por_casos request db) as Hc.
    destruct (query_mision db _) as [mision|] eqn:Hm.
    2:{ destruct Hc as [e ->]. now apply Hsame. }
    destruct (query_personaje db (CompletarMisionRequest.personaje_id request))
      as [personaje|] eqn:Hp.
    2:{ destruct Hc as [e ->]. now apply Hsame. }
    destruct (relacion_a_completar db _ _) as [relacion|] eqn:Hr.
    2:{ destruct Hc as [e ->]. now apply Hsame. }
    rewrite Hc. simpl.
    destruct (Z.eq_dec (CompletarMisionRequest.personaje_id request) pid) as [E|E].
    + rewrite E in Hp. rewrite Hq in Hp. injection Hp as <-.
      eexists. split.
      * apply (query_update_personaje_same db pid p); [assumption|].
        simpl. now apply query_personaje_id in Hq.
      * right. exists request, mision. eexists.
        rewrite Hc. simpl. repeat split; try assumption; reflexivity.
    + exists p. split; [|now left].
      rewrite query_update_personaje_other; [assumption|].
      simpl. apply query_personaje_id in Hp as [_ Hp]. congruence.
  - now apply Hsame.
  - apply Hsame, personajes_desencolar_mision.
Qed.

(** The invariant behind non-negative experience: no stored quest has a
    negative reward and no stored character a negative experience. *)
Lemma serve_no_negativa req db :
  recompensa_no_negativa req ->
  (forall p, In p (personajes db) -> 0 <= Personaje.experiencia p) /\
  (forall m, In m (misiones db) -> 0 <= Mision.experiencia m) ->
  (forall p, In p (personajes (serve req db)) -> 0 <= Personaje.experiencia p) /\
  (forall m, In m (misiones (serve req db)) -> 0 <= Mision.experiencia m).
Proof.
  intros Hreq [Hps Hms]. destruct req; simpl in *.
  - split; [assumption|]. intros m Hm. apply in_app_or in Hm as [Hm|[<-|[]]]; auto.
  - rewrite personajes_actualizar_mision. split; [assumption|].
    unfold actualizar_mision.
    destruct (query_mision db id) as [mision|] eqn:E; simpl; [|assumption].
    apply query_mision_id in E as [Hin _].
    intros m Hm. unfold update_mision in Hm.
    apply in_map_iff in Hm as [x [Hx Hxin]].
    destruct (Mision.id x =? _); subst m; simpl; auto.
  - rewrite personajes_eliminar_mision. split; [assumption|].
    unfold eliminar_mision.
    destruct (query_mision db id) as [mision|]; simpl; [|assumption].
    intros m Hm. apply filter_In in Hm as [Hm _]. auto.
  - split; [|assumption].
    intros p Hp. apply in_app_or in Hp as [Hp|[<-|[]]]; simpl; [auto | lia].
  - rewrite personajes_aceptar_mision, misiones_aceptar_mision. auto.
  - pose proof (completar_mision_por_casos request db) as Hc.
    destruct (query_mision db _) as [mision|] eqn:Hm.
    2:{ destruct Hc as [e ->]. auto. }
    destruct (query_personaje db _) as [personaje|] eqn:Hp.
    2:{ destruct Hc as [e ->]. auto. }
    destruct (relacion_a_completar db _ _) as [relacion|] eqn:Hr.
    2:{ destruct Hc as [e ->]. auto. }
    rewrite Hc. simpl. split; [|assumption].
    apply query_mision_id in Hm as [Hm _].
    apply query_personaje_id in Hp as [Hp _].
    intros p Hin. unfold update_personaje in Hin.
    apply in_map_iff in Hin as [x [Hx Hxin]].
    destruct (Personaje.id x =? _); subst p; simpl; [|auto].
    specialize (Hps _ Hp). specialize (Hms _ Hm). lia.
  - auto.
  - rewrite personajes_desencolar_mision, misiones_desencolar_mision. auto.
Qed.

(** C9 as stated fails: completing a quest whose reward is -5 leaves a
    reachable database in which Aria's experience is -5. *)
Lemma experiencia_negativa_alcanzable :
  reachable db_negativa /\
  query_personaje db_negativa 1 = Some (Personaje.mk 1 "Aria" (-5)) /\
  ~ (forall p, In p (personajes db_negativa) -> 0 <= Personaje.experiencia p).
Proof.
  split; [apply reachable_run | split; [reflexivity|]].
  intros H. specialize (H (Personaje.mk 1 "Aria" (-5)) (or_introl eq_refl)).
  simpl in H. lia.
Qed.

(** The routes that only read hand back the database they were given. *)
Lemma lecturas_no_escriben str db pid id :
  fst (obtener_misiones_por_personaje str pid db) = db /\
  fst (obtener_mision id db) = db /\
  fst (obtener_personajes db) = db /\
  fst (ver_primera_mision pid db) = db /\
  fst (cola_vacia pid db) = db /\
  fst (tamaño_cola pid db) = db.
Proof.
  repeat split.
  - unfold obtener_misiones_por_personaje, obtener_misiones_por_personaje_try.
    now destruct (query_personaje db pid).
  - unfold obtener_mision. now destruct (query_mision db id).
  - unfold ver_primera_mision, ColaMisiones.first. cbv zeta.
    now destruct (ColaMisiones.primera _ db).
Qed.

(** C9, amended. A created character starts with experience 0. The only
    request that changes the stored experience of a character is a
    [completar_mision] for that character that returns, and it adds the
    reward of the quest, whatever its sign; the reading routes change
    nothing. Experience is non-negative in every database reached by
    requests that create no quest with a negative reward. *)
Theorem experiencia_solo_por_completar :
  (forall personaje db,
     exists nuevo,
       crear_personaje personaje db =
         (mkSession (misiones db) (personajes db ++ [nuevo]) (misiones_personaje db),
          Returned nuevo) /\
       Personaje.experiencia nuevo = 0) /\
  (forall req db pid p,
     query_personaje db pid = Some p ->
     exists p',
       query_personaje (serve req db) pid = Some p' /\
       (Personaje.experiencia p' = Personaje.experiencia p \/
        exists request mision response,
          req = POST_completar_mision request /\
          CompletarMisionRequest.personaje_id request = pid /\
          query_mision db (CompletarMisionRequest.mision_id request) = Some mision /\
          snd (completar_mision request db) = Returned response /\
          Personaje.experiencia p' =
            Personaje.experiencia p + Mision.experiencia mision)) /\
  (forall str db pid id,
     fst (obtener_misiones_por_personaje str pid db) = db /\
     fst (obtener_mision id db) = db /\
     fst (obtener_personajes db) = db /\
     fst (ver_primera_mision pid db) = db /\
     fst (cola_vacia pid db) = db /\
     fst (tamaño_cola pid db) = db) /\
  (forall db,
     reachable_by recompensa_no_negativa db ->
     forall p, In p (personajes db) -> 0 <= Personaje.experiencia p).
Proof.
  split; [|split; [|split]].
  - intros personaje db. eexists. split; reflexivity.
  - intros req db pid p. apply serve_experiencia.
  - apply lecturas_no_escriben.
  - intros db Hreach.
    enough (H : (forall p, In p (personajes db) -> 0 <= Personaje.experiencia p) /\
                (forall m, In m (misiones db) -> 0 <= Mision.experiencia m))
      by apply H.
    induction Hreach as [|db req _ IH Hreq].
    + split; intros x [].
    + now apply serve_no_negativa.
Qed.

Lemma experiencia_solo_por_completar_witness :
  0 <= Personaje.experiencia (Personaje.mk 1 "Aria" 50) /\
  exists p',
    query_personaje
      (serve (POST_completar_mision (CompletarMisionRequest.mk 1 1)) db_aceptada) 1
    = Some p'.
Proof.
  destruct experiencia_solo_por_completar as [_ [Hstep [_ Hpos]]].
  split.
  - apply (Hpos (serve (POST_completar_mision (CompletarMisionRequest.mk 1 1))
                   db_aceptada)).
    + apply (reachable_by_run recompensa_no_negativa
               [POST_personajes aria; POST_misiones slay_dragon 0;
                POST_aceptar_mision (AceptarMisionRequest.mk 1 1 0);
                POST_completar_mision (CompletarMisionRequest.mk 1 1)]).
      repeat constructor. simpl. lia.
    + left. reflexivity.
  - destruct (Hstep (POST_completar_mision (CompletarMisionRequest.mk 1 1))
                db_aceptada 1 (Personaje.mk 1 "Aria" 0) eq_refl) as [p' [Hq _]].
    exists p'. exact Hq.
Defined.

(** ** The claims at concrete databases *)

Lemma enqueue_dequeue_witness :
  snd (desencolar_mision 1 (fst (encolar_mision 1 1 db_creada))) =
  Returned (ColaMisiones.DequeueResponse.mk "Misión eliminada de la cola" (Some 1)).
Proof. exact (proj1 (enqueue_dequeue db_creada 1 1)). Defined.

Lemma enqueue_siguiente_orden_witness :
  exists nueva,
    fst (ColaMisiones.enqueue (ColaMisiones.mk 1) 1 db_en_cola) =
      mkSession (misiones db_en_cola) (personajes db_en_cola)
        (misiones_personaje db_en_cola ++ [nueva]) /\
    MisionPersonaje.orden nueva = 1.
Proof.
  destruct (enqueue_siguiente_orden db_en_cola 1 1)
    as [nueva [Heq [_ [_ [_ [_ [_ Hmax]]]]]]].
  exists nueva. split; [now rewrite Heq|].
  destruct (Hmax (MisionPersonaje.mk 1 1 (Some 1) 0 false)
              (or_introl eq_refl) eq_refl) as [r [[<-|[]] [_ Hr]]].
  exact Hr.
Defined.

Lemma cola_sin_validacion_witness :
  query_personaje db_vacia 7 = None /\
  query_mision db_vacia 9 = None /\
  snd (encolar_mision 7 9 db_vacia) = Returned "Misión encolada correctamente" /\
  cola_vacia 7 db_vacia = (db_vacia, Returned true) /\
  tamaño_cola 7 db_vacia = (db_vacia, Returned 0).
Proof.
  destruct (cola_sin_validacion db_vacia 7 9) as [[nueva [Heq _]] [_ [_ Hnone]]].
  split; [reflexivity|]. split; [reflexivity|].
  split; [now rewrite Heq|]. apply Hnone. intros r [].
Defined.

(** The scenarios of the specification. *)
Example escenario_aceptar_completar :
  forall str,
    snd (obtener_misiones_por_personaje str 1 db_aceptada) =
      Returned [Mision.mk 1 "Slay Dragon" "Slay the dragon" 50 0] /\
    snd (obtener_misiones_por_personaje str 1
           (fst (completar_mision (CompletarMisionRequest.mk 1 1) db_aceptada))) =
      Returned [].
Proof. intros str. split; reflexivity. Qed.

Example escenario_fifo :
  let db := fst (encolar_mision 1 2 db_en_cola) in
  option_map MisionPersonaje.mision_id
    (ColaMisiones.primera (ColaMisiones.mk 1) db) = Some (Some 1) /\
  option_map MisionPersonaje.mision_id
    (ColaMisiones.primera (ColaMisiones.mk 1) (fst (desencolar_mision 1 db)))
  = Some (Some 2).
Proof. split; reflexivity. Qed.

(** A character id that no row carries can still own queue rows. *)
Example cola_de_personaje_ausente :
  query_personaje (fst (encolar_mision 7 9 db_vacia)) 7 = None /\
  tamaño_cola 7 (fst (encolar_mision 7 9 db_vacia)) =
    (fst (encolar_mision 7 9 db_vacia), Returned 1).
Proof. split; reflexivity. Qed.

(** * Beyond the claims: the rest of the routes *)

(** ** Quest CRUD *)

Lemma query_mision_app db mid m ps nueva rs :
  query_mision db mid = Some m ->
  query_mision (mkSession (misiones db ++ [nueva]) ps rs) mid = Some m.
Proof.
  unfold query_mision. simpl. rewrite filter_app.
  destruct (filter _ (misiones db)); simpl; [discriminate | auto].
Qed.

Lemma filter_key_fresh {A : Type} (key : A -> Z) (l : list A) :
  filter (fun x => key x =? siguiente_id (map key l)) l = [].
Proof.
  apply first_None, first_filter_None. intros x Hx.
  apply Z.eqb_neq. pose proof (siguiente_id_fresh (map key l) (key x)
                                 (in_map key l x Hx)). lia.
Qed.

Lemma query_update_mision_same db mid m m' ps rs :
  query_mision db mid = Some m -> Mision.id m' = mid ->
  query_mision (mkSession (update_mision m' (misiones db)) ps rs) mid = Some m'.
Proof.
  intros Hq Hid. pose proof (query_mision_id _ _ _ Hq) as [_ Hm].
  unfold query_mision in *. simpl. unfold update_mision.
  rewrite first_filter_map.
  - rewrite Hq. simpl. rewrite Hm, Hid, Z.eqb_refl. reflexivity.
  - intros x. destruct (Z.eqb_spec (Mision.id x) (Mision.id m')); congruence.
Qed.

Lemma query_update_mision_other db mid m' ps rs :
  Mision.id m' <> mid ->
  query_mision (mkSession (update_mision m' (misiones db)) ps rs) mid
  = query_mision db mid.
Proof.
  intros Hid. unfold query_mision. simpl.
  induction (misiones db) as [|x l IH]; simpl; [reflexivity|].
  destruct (Z.eqb_spec (Mision.id x) (Mision.id m')) as [E|E].
  - destruct (Z.eqb_spec (Mision.id m') mid); [contradiction|].
    destruct (Z.eqb_spec (Mision.id x) mid); [congruence | assumption].
  - destruct (Mision.id x =? mid); simpl; [reflexivity | assumption].
Qed.

(** X1. A quest just created can be fetched: [crear_mision] returns a quest
    that carries the body's three fields and the clock reading, under an id
    that no quest had; [obtener_mision] with that id then returns this very
    quest, and every quest that could be fetched before is fetched
    unchanged. *)
Theorem crear_mision_obtener_mision
  (mision : MisionCreate.t) (utcnow : Z) (db : Session) :
  exists nueva,
    crear_mision mision utcnow db =
      (mkSession (misiones db ++ [nueva]) (personajes db) (misiones_personaje db),
       Returned nueva) /\
    Mision.nombre nueva = MisionCreate.nombre mision /\
    Mision.descripcion nueva = MisionCreate.descripcion mision /\
    Mision.experiencia nueva = MisionCreate.experiencia mision /\
    Mision.fecha_creacion nueva = utcnow /\
    snd (obtener_mision (Mision.id nueva) db) = Raised mision_no_encontrada /\
    snd (obtener_mision (Mision.id nueva) (fst (crear_mision mision utcnow db)))
      = Returned nueva /\
    (forall id m,
       snd (obtener_mision id db) = Returned m ->
       snd (obtener_mision id (fst (crear_mision mision utcnow db))) = Returned m).
Proof.
  eexists. split; [reflexivity|]. simpl.
  repeat (split; [reflexivity|]).
  assert (Hfresh : query_mision db (siguiente_id (map Mision.id (misiones db))) = None).
  { unfold query_mision. now rewrite (filter_key_fresh Mision.id). }
  split; [|split].
  - unfold obtener_mision. now rewrite Hfresh.
  - unfold obtener_mision, query_mision in *. simpl. rewrite filter_app.
    apply first_None in Hfresh. rewrite Hfresh. simpl.
    now rewrite Z.eqb_refl.
  - intros id m Hm. unfold obtener_mision in *.
    destruct (query_mision db id) as [m0|] eqn:E; [|discriminate].
    injection Hm as ->. now rewrite (query_mision_app db id m).
Qed.

(** X2. [actualizar_mision] on an id that no quest carries raises the 404 and
    changes nothing. On a quest that exists it returns that quest with the
    new description and every other field as it was; fetching the id
    afterwards gives the updated quest, fetching any other id gives what it
    gave before, and the other two tables are untouched. *)
Theorem actualizar_mision_descripcion
  (id : Z) (descripcion : string) (db : Session) :
  (query_mision db id = None ->
   actualizar_mision id descripcion db = (db, Raised mision_no_encontrada)) /\
  (forall mision,
     query_mision db id = Some mision ->
     snd (actualizar_mision id descripcion db)
       = Returned (con_descripcion descripcion mision) /\
     snd (obtener_mision id (fst (actualizar_mision id descripcion db)))
       = Returned (con_descripcion descripcion mision) /\
     (forall id', id' <> id ->
        obtener_mision id' (fst (actualizar_mision id descripcion db)) =
        (fst (actualizar_mision id descripcion db), snd (obtener_mision id' db))) /\
     personajes (fst (actualizar_mision id descripcion db)) = personajes db /\
     misiones_personaje (fst (actualizar_mision id descripcion db))
       = misiones_personaje db).
Proof.
  unfold actualizar_mision. split.
  - intros ->. reflexivity.
  - intros mision Hq. rewrite Hq. simpl.
    pose proof (query_mision_id _ _ _ Hq) as [_ Hid].
    split; [reflexivity|]. split; [|split; [|split; reflexivity]].
    + unfold obtener_mision.
      now rewrite (query_update_mision_same db id mision).
    + intros id' Hne. unfold obtener_mision.
      rewrite query_update_mision_other by (simpl; congruence).
      now destruct (query_mision db id').
Qed.

Lemma actualizar_mision_descripcion_witness :
  actualizar_mision 2 "Burn it" db_creada = (db_creada, Raised mision_no_encontrada) /\
  snd (obtener_mision 1 (fst (actualizar_mision 1 "Burn it" db_creada)))
    = Returned (Mision.mk 1 "Slay Dragon" "Burn it" 50 0).
Proof.
  split.
  - exact (proj1 (actualizar_mision_descripcion 2 "Burn it" db_creada) eq_refl).
  - exact (proj1 (proj2 (proj2 (actualizar_mision_descripcion 1 "Burn it" db_creada)
                           (Mision.mk 1 "Slay Dragon" "Slay the dragon" 50 0)
                           eq_refl))).
Defined.

(** X3. The last description written wins: updating a quest twice leaves the
    database that the second update alone would leave. In particular an
    update repeated with the same description changes nothing more. *)
Theorem actualizar_mision_dos_veces (id : Z) (d1 d2 : string) (db : Session) :
  fst (actualizar_mision id d2 (fst (actualizar_mision id d1 db))) =
  fst (actualizar_mision id d2 db).
Proof.
  unfold actualizar_mision at 2 3.
  destruct (query_mision db id) as [m|] eqn:Hq; simpl.
  - pose proof (query_mision_id _ _ _ Hq) as [_ Hid].
    unfold actualizar_mision.
    rewrite (query_update_mision_same db id m) by assumption. simpl.
    f_equal. unfold update_mision. rewrite map_map. apply map_ext.
    intros x. simpl.
    destruct (Z.eqb_spec (Mision.id x) (Mision.id m)) as [E|E]; simpl.
    + now rewrite Z.eqb_refl.
    + destruct (Z.eqb_spec (Mision.id x) (Mision.id m)); [contradiction|].
      reflexivity.
  - unfold actualizar_mision. now rewrite Hq.
Qed.

Lemma filter_map_length {A : Type} (p : A -> bool) (g : A -> A) (l : list A) :
  (forall x, p (g x) = p x) ->
  List.length (filter p (map g l)) = List.length (filter p l).
Proof.
  intros H. induction l as [|x l IH]; simpl; [reflexivity|].
  rewrite H. destruct (p x); simpl; now rewrite IH.
Qed.

Lemma relacion_mision_In db r q :
  relacion_mision db r = Some q -> In q (misiones db).
Proof.
  unfold relacion_mision. destruct (MisionPersonaje.mision_id r); [|discriminate].
  intros H. now apply query_mision_id in H.
Qed.

(** Every quest the list route returns is a row of the quest table. *)
Lemma obtener_misiones_In str db pid lista q :
  snd (obtener_misiones_por_personaje str pid db) = Returned lista ->
  In q lista -> In q (misiones db).
Proof.
  unfold obtener_misiones_por_personaje, obtener_misiones_por_personaje_try.
  destruct (query_personaje db pid); simpl; [|discriminate].
  intros [= <-] Hq. apply in_flat_map in Hq as [r [_ Hq]].
  destruct (relacion_mision db r) as [m|] eqn:E; [|destruct Hq].
  destruct Hq as [<-|[]]. now apply relacion_mision_In in E.
Qed.

(** X4. [eliminar_mision] on an id that no quest carries raises the 404 and
    changes nothing. On a quest that exists it returns its message; the id
    can no longer be fetched and a second delete raises the 404; every other
    quest is fetched as before; the characters are untouched; no queue
    shrinks (the delete does not cascade to the assignment rows, so every
    [tamaño_cola] answers as before); and the deleted quest is in no list
    of active quests any more. *)
Theorem eliminar_mision_sin_cascada (id : Z) (db : Session) :
  (query_mision db id = None ->
   eliminar_mision id db = (db, Raised mision_no_encontrada)) /\
  (forall mision,
     query_mision db id = Some mision ->
     snd (eliminar_mision id db) = Returned "Misión eliminada" /\
     snd (obtener_mision id (fst (eliminar_mision id db)))
       = Raised mision_no_encontrada /\
     snd (eliminar_mision id (fst (eliminar_mision id db)))
       = Raised mision_no_encontrada /\
     (forall id', id' <> id ->
        snd (obtener_mision id' (fst (eliminar_mision id db)))
        = snd (obtener_mision id' db)) /\
     personajes (fst (eliminar_mision id db)) = personajes db /\
     (forall pid,
        snd (tamaño_cola pid (fst (eliminar_mision id db)))
        = snd (tamaño_cola pid db)) /\
     (forall str pid lista q,
        snd (obtener_misiones_por_personaje str pid (fst (eliminar_mision id db)))
          = Returned lista ->
        In q lista -> Mision.id q <> id)).
Proof.
  split.
  - intros H. unfold eliminar_mision. now rewrite H.
  - intros mision Hq. pose proof (query_mision_id _ _ _ Hq) as [_ Hid].
    assert (Heq : eliminar_mision id db =
      (mkSession
         (filter (fun m => negb (Mision.id m =? id)) (misiones db))
         (personajes db)
         (map (fun r => if option_Z_eqb (MisionPersonaje.mision_id r) id
                        then MisionPersonaje.set_mision_id None r else r)
            (misiones_personaje db)),
       Returned "Misión eliminada")).
    { unfold eliminar_mision. rewrite Hq, Hid. reflexivity. }
    rewrite Heq. simpl.
    assert (Hgone : query_mision
                      (mkSession
                         (filter (fun m => negb (Mision.id m =? id)) (misiones db))
                         (personajes db)
                         (map (fun r => if option_Z_eqb (MisionPersonaje.mision_id r) id
                                        then MisionPersonaje.set_mision_id None r else r)
                            (misiones_personaje db))) id = None).
    { unfold query_mision. simpl. rewrite filter_filter_andb.
      apply first_filter_None. intros x _. now destruct (Mision.id x =? id). }
    split; [reflexivity|]. split; [|split; [|split; [|split; [reflexivity|split]]]].
    + unfold obtener_mision. now rewrite Hgone.
    + unfold eliminar_mision. now rewrite Hgone.
    + intros id' Hne. unfold obtener_mision, query_mision. simpl.
      rewrite filter_filter_andb.
      assert (E : filter (fun x => (Mision.id x =? id') && negb (Mision.id x =? id))
                    (misiones db)
                  = filter (fun m => Mision.id m =? id') (misiones db)).
      { apply filter_ext. intros x.
        destruct (Z.eqb_spec (Mision.id x) id'); [|reflexivity].
        destruct (Z.eqb_spec (Mision.id x) id); [congruence | reflexivity]. }
      rewrite E. now destruct (first _).
    + intros pid. unfold tamaño_cola, ColaMisiones.size, ColaMisiones.cantidad, count.
      simpl. rewrite filter_map_length; [reflexivity|].
      intros x. now destruct (option_Z_eqb _ _).
    + intros str pid lista q Hl Hin.
      apply (obtener_misiones_In _ _ _ _ _ Hl) in Hin. simpl in Hin.
      apply filter_In in Hin as [_ Hin]. apply negb_true_iff, Z.eqb_neq in Hin.
      assumption.
Qed.

Lemma eliminar_mision_sin_cascada_witness :
  eliminar_mision 2 db_aceptada = (db_aceptada, Raised mision_no_encontrada) /\
  snd (tamaño_cola 1 (fst (eliminar_mision 1 db_aceptada))) = Returned 1 /\
  snd (obtener_mision 1 (fst (eliminar_mision 1 db_aceptada)))
    = Raised mision_no_encontrada.
Proof.
  split; [|split].
  - exact (proj1 (eliminar_mision_sin_cascada 2 db_aceptada) eq_refl).
  - exact (proj1 (proj2 (proj2 (proj2 (proj2 (proj2
             (proj2 (eliminar_mision_sin_cascada 1 db_aceptada)
                (Mision.mk 1 "Slay Dragon" "Slay the dragon" 50 0) eq_refl))))))
             1).
  - exact (proj1 (proj2
             (proj2 (eliminar_mision_sin_cascada 1 db_aceptada)
                (Mision.mk 1 "Slay Dragon" "Slay the dragon" 50 0) eq_refl))).
Defined.

(** ** The 404 checks of accept and complete *)

(** X5. Both lifecycle routes raise a 404 and change nothing when the
    character or the quest of the request does not exist, before any
    assignment row is looked at. They check in opposite orders: with neither
    present, [aceptar_mision] reports the character and [completar_mision]
    the quest. *)
Theorem precedencia_no_encontrado (db : Session) (pid mid orden : Z) :
  (query_personaje db pid = None ->
   aceptar_mision (AceptarMisionRequest.mk pid mid orden) db
   = (db, Raised personaje_no_encontrado)) /\
  (query_personaje db pid <> None -> query_mision db mid = None ->
   aceptar_mision (AceptarMisionRequest.mk pid mid orden) db
   = (db, Raised mision_no_encontrada)) /\
  (query_mision db mid = None ->
   completar_mision (CompletarMisionRequest.mk pid mid) db
   = (db, Raised mision_no_encontrada)) /\
  (query_mision db mid <> None -> query_personaje db pid = None ->
   completar_mision (CompletarMisionRequest.mk pid mid) db
   = (db, Raised personaje_no_encontrado)).
Proof.
  unfold aceptar_mision, completar_mision. cbv zeta. simpl.
  repeat split.
  - intros ->. reflexivity.
  - intros Hp ->. destruct (query_personaje db pid); [reflexivity | contradiction].
  - intros ->. reflexivity.
  - intros Hm ->. destruct (query_mision db mid); [reflexivity | contradiction].
Qed.

Lemma precedencia_no_encontrado_witness :
  aceptar_mision (AceptarMisionRequest.mk 7 9 0) db_creada
    = (db_creada, Raised personaje_no_encontrado) /\
  completar_mision (CompletarMisionRequest.mk 7 9) db_creada
    = (db_creada, Raised mision_no_encontrada) /\
  aceptar_mision (AceptarMisionRequest.mk 1 9 0) db_creada
    = (db_creada, Raised mision_no_encontrada) /\
  completar_mision (CompletarMisionRequest.mk 7 1) db_creada
    = (db_creada, Raised personaje_no_encontrado).
Proof.
  split; [|split; [|split]].
  - exact (proj1 (precedencia_no_encontrado db_creada 7 9 0) eq_refl).
  - exact (proj1 (proj2 (proj2 (precedencia_no_encontrado db_creada 7 9 0))) eq_refl).
  - apply (proj1 (proj2 (precedencia_no_encontrado db_creada 1 9 0)));
      [discriminate | reflexivity].
  - apply (proj2 (proj2 (proj2 (precedencia_no_encontrado db_creada 7 1 0))));
      [discriminate | reflexivity].
Defined.

(** ** The queue routes agree with one another *)

Lemma cantidad_cero (self : ColaMisiones.t) (db : Session) :
  ColaMisiones.cantidad self db = 0 <-> ColaMisiones.primera self db = None.
Proof.
  unfold ColaMisiones.cantidad, ColaMisiones.primera, count.
  rewrite first_order_by_None.
  destruct (filter _ (misiones_personaje db)); simpl; split;
    try reflexivity; try discriminate; lia.
Qed.

(** X6. The four reading and popping routes of a queue agree. [is_empty]
    answers true exactly when [dequeue] raises the 404 "La cola está vacía",
    which is exactly when [first] raises it. When [first] returns a quest,
    [dequeue] returns that quest's id; and [first] never changes what
    [dequeue] will return, since it hands back the database as given. *)
Theorem cola_coherente (db : Session) (personaje_id : Z) :
  (snd (cola_vacia personaje_id db) = Returned true <->
   snd (desencolar_mision personaje_id db) = Raised cola_vacia_404) /\
  (snd (desencolar_mision personaje_id db) = Raised cola_vacia_404 <->
   snd (ver_primera_mision personaje_id db) = Raised cola_vacia_404) /\
  (forall mision,
     snd (ver_primera_mision personaje_id db) = Returned (Some mision) ->
     snd (desencolar_mision personaje_id db) =
       Returned (ColaMisiones.DequeueResponse.mk "Misión eliminada de la cola"
                   (Some (Mision.id mision)))) /\
  desencolar_mision personaje_id (fst (ver_primera_mision personaje_id db))
  = desencolar_mision personaje_id db.
Proof.
  assert (Hsame : fst (ver_primera_mision personaje_id db) = db).
  { unfold ver_primera_mision, ColaMisiones.first. cbv zeta.
    now destruct (ColaMisiones.primera _ db). }
  rewrite Hsame. clear Hsame.
  unfold cola_vacia, desencolar_mision, ver_primera_mision,
    ColaMisiones.is_empty, ColaMisiones.dequeue, ColaMisiones.first. cbv zeta.
  pose proof (cantidad_cero (ColaMisiones.mk personaje_id) db) as Hc.
  destruct (ColaMisiones.primera (ColaMisiones.mk personaje_id) db)
    as [primera|] eqn:E; simpl.
  - split; [|split; [|split; [|reflexivity]]].
    + split; [|discriminate]. intros [= H]. apply Z.eqb_eq, Hc in H. discriminate.
    + split; discriminate.
    + intros mision [= H]. unfold relacion_mision in H.
      destruct (MisionPersonaje.mision_id primera) as [mid|]; [|discriminate].
      apply query_mision_id in H as [_ ->]. reflexivity.
  - split; [|split; [|split; [|reflexivity]]].
    + split; [reflexivity|]. intros _. rewrite (proj2 Hc eq_refl). reflexivity.
    + split; reflexivity.
    + discriminate.
Qed.

Lemma cola_coherente_witness :
  snd (cola_vacia 1 db_creada) = Returned true /\
  snd (desencolar_mision 1 db_aceptada) =
    Returned (ColaMisiones.DequeueResponse.mk "Misión eliminada de la cola" (Some 1)).
Proof.
  split.
  - exact (proj2 (proj1 (cola_coherente db_creada 1)) eq_refl).
  - exact (proj1 (proj2 (proj2 (cola_coherente db_aceptada 1)))
             (Mision.mk 1 "Slay Dragon" "Slay the dragon" 50 0) eq_refl).
Defined.

(** ** How the routes move the size of a queue *)

Lemma delete_relacion_absent r l :
  (forall x, In x l -> MisionPersonaje.id x <> MisionPersonaje.id r) ->
  delete_relacion r l = l.
Proof.
  intros H. induction l as [|x l IH]; simpl; [reflexivity|].
  destruct (Z.eqb_spec (MisionPersonaje.id x) (MisionPersonaje.id r)) as [E|E].
  - destruct (H x (or_introl eq_refl) E).
  - simpl. rewrite IH; [reflexivity|]. intros y Hy. apply H. now right.
Qed.

Lemma update_relacion_absent r' l :
  (forall x, In x l -> MisionPersonaje.id x <> MisionPersonaje.id r') ->
  update_relacion r' l = l.
Proof.
  intros H. induction l as [|x l IH]; simpl; [reflexivity|].
  destruct (Z.eqb_spec (MisionPersonaje.id x) (MisionPersonaje.id r')) as [E|E].
  - destruct (H x (or_introl eq_refl) E).
  - rewrite IH; [reflexivity|]. intros y Hy. apply H. now right.
Qed.

Lemma NoDup_ids_tail (x : MisionPersonaje.t) l :
  NoDup (map MisionPersonaje.id (x :: l)) ->
  forall y, In y l -> MisionPersonaje.id y <> MisionPersonaje.id x.
Proof.
  intros H y Hy E. inversion H as [|? ? Hx _]; subst.
  apply Hx. rewrite <- E. now apply in_map.
Qed.

Lemma delete_relacion_cons r x l :
  delete_relacion r (x :: l) =
  if MisionPersonaje.id x =? MisionPersonaje.id r
  then delete_relacion r l else x :: delete_relacion r l.
Proof.
  unfold delete_relacion. simpl.
  now destruct (MisionPersonaje.id x =? MisionPersonaje.id r).
Qed.

Lemma update_relacion_cons r' x l :
  update_relacion r' (x :: l) =
  (if MisionPersonaje.id x =? MisionPersonaje.id r' then r' else x)
    :: update_relacion r' l.
Proof. reflexivity. Qed.

(** Deleting a row by key takes it, and nothing else, out of a count. *)
Lemma count_delete_relacion (p : MisionPersonaje.t -> bool) r l :
  NoDup (map MisionPersonaje.id l) -> In r l ->
  (List.length (filter p (delete_relacion r l)) + (if p r then 1 else 0)
   = List.length (filter p l))%nat.
Proof.
  induction l as [|x l IH]; intros Hnd Hin; [destruct Hin|].
  pose proof (NoDup_ids_tail x l Hnd) as Htail.
  rewrite delete_relacion_cons. cbn [filter].
  destruct Hin as [->|Hin].
  - rewrite Z.eqb_refl, delete_relacion_absent by assumption.
    destruct (p r); cbn [List.length]; lia.
  - destruct (Z.eqb_spec (MisionPersonaje.id x) (MisionPersonaje.id r)) as [E|E].
    + exfalso. apply (Htail r Hin). congruence.
    + cbn [filter]. inversion Hnd; subst.
      specialize (IH ltac:(assumption) Hin).
      destruct (p x); cbn [List.length]; lia.
Qed.

(** Updating a row by key swaps it, and nothing else, in a count. *)
Lemma count_update_relacion (p : MisionPersonaje.t -> bool) r r' l :
  NoDup (map MisionPersonaje.id l) -> In r l ->
  MisionPersonaje.id r' = MisionPersonaje.id r ->
  (List.length (filter p (update_relacion r' l)) + (if p r then 1 else 0)
   = List.length (filter p l) + (if p r' then 1 else 0))%nat.
Proof.
  intros Hnd Hin Hid.
  induction l as [|x l IH]; [destruct Hin|].
  pose proof (NoDup_ids_tail x l Hnd) as Htail.
  rewrite update_relacion_cons. cbn [filter].
  destruct Hin as [->|Hin].
  - rewrite Hid, Z.eqb_refl.
    rewrite update_relacion_absent by (intros y Hy; rewrite Hid; now apply Htail).
    destruct (p r), (p r'); cbn [List.length]; lia.
  - destruct (Z.eqb_spec (MisionPersonaje.id x) (MisionPersonaje.id r')) as [E|E].
    + exfalso. apply (Htail r Hin). congruence.
    + inversion Hnd; subst. specialize (IH ltac:(assumption) Hin).
      destruct (p x); cbn [List.length]; lia.
Qed.

Lemma cantidad_add_relacion self db pid mid o :
  ColaMisiones.cantidad self (add_relacion db pid mid o) =
  ColaMisiones.cantidad self db
  + (if pid =? ColaMisiones.personaje_id self then 1 else 0).
Proof.
  unfold ColaMisiones.cantidad, count, add_relacion. simpl.
  rewrite filter_app, length_app. cbn [filter]. unfold pendiente_de at 2.
  cbn [MisionPersonaje.personaje_id MisionPersonaje.estado negb].
  rewrite andb_true_r.
  destruct (pid =? ColaMisiones.personaje_id self); cbn [List.length]; lia.
Qed.

(** X7. [enqueue] makes the character's queue one longer and leaves the size
    of every other queue; a [dequeue] that returns makes the character's
    queue one shorter and leaves the size of every other queue. *)
Theorem tamano_tras_encolar_desencolar (db : Session) (personaje_id mision_id : Z) :
  wf db ->
  (forall pid,
     ColaMisiones.cantidad (ColaMisiones.mk pid)
       (fst (encolar_mision personaje_id mision_id db))
     = ColaMisiones.cantidad (ColaMisiones.mk pid) db
       + (if pid =? personaje_id then 1 else 0)) /\
  (forall response,
     snd (desencolar_mision personaje_id db) = Returned response ->
     forall pid,
       ColaMisiones.cantidad (ColaMisiones.mk pid)
         (fst (desencolar_mision personaje_id db))
       = ColaMisiones.cantidad (ColaMisiones.mk pid) db
         - (if pid =? personaje_id then 1 else 0)).
Proof.
  intros Hwf. split.
  - intros pid. unfold encolar_mision, ColaMisiones.enqueue, commit. cbv zeta.
    simpl. rewrite cantidad_add_relacion. simpl.
    now rewrite (Z.eqb_sym personaje_id pid).
  - intros response Hret pid.
    unfold desencolar_mision, ColaMisiones.dequeue in *. cbv zeta in *.
    destruct (ColaMisiones.primera (ColaMisiones.mk personaje_id) db)
      as [primera|] eqn:E; [|discriminate].
    apply primera_Some in E as [Hin [Hp _]]. simpl in Hp.
    apply pendiente_de_iff in Hp as [Hp He].
    simpl. unfold ColaMisiones.cantidad, count. simpl.
    pose proof (count_delete_relacion (pendiente_de pid) primera
                  (misiones_personaje db) (wf_relaciones db Hwf) Hin) as Hc.
    assert (H2 : pendiente_de pid primera = (personaje_id =? pid))
      by (unfold pendiente_de; rewrite Hp, He; apply andb_true_r).
    rewrite H2 in Hc.
    rewrite (Z.eqb_sym pid personaje_id).
    destruct (personaje_id =? pid); lia.
Qed.

Lemma tamano_tras_encolar_desencolar_witness :
  ColaMisiones.cantidad (ColaMisiones.mk 1) (fst (encolar_mision 1 1 db_aceptada)) = 2 /\
  ColaMisiones.cantidad (ColaMisiones.mk 1) (fst (desencolar_mision 1 db_aceptada)) = 0.
Proof.
  destruct (tamano_tras_encolar_desencolar db_aceptada 1 1
              (reachable_wf _ (reachable_run _))) as [Henq Hdeq].
  split.
  - exact (Henq 1).
  - exact (Hdeq (ColaMisiones.DequeueResponse.mk "Misión eliminada de la cola" (Some 1))
             eq_refl 1).
Defined.

(** X8. An [aceptar_mision] that returns makes the character's queue one
    longer, and a [completar_mision] that returns makes it one shorter while
    the number of assignment rows stays: the completed row is kept, resolved.
    Neither changes the size of another character's queue. *)
Theorem tamano_tras_aceptar_completar (db : Session) :
  wf db ->
  (forall request msg,
     snd (aceptar_mision request db) = Returned msg ->
     forall pid,
       ColaMisiones.cantidad (ColaMisiones.mk pid) (fst (aceptar_mision request db))
       = ColaMisiones.cantidad (ColaMisiones.mk pid) db
         + (if pid =? AceptarMisionRequest.personaje_id request then 1 else 0)) /\
  (forall request response,
     snd (completar_mision request db) = Returned response ->
     List.length (misiones_personaje (fst (completar_mision request db)))
     = List.length (misiones_personaje db) /\
     forall pid,
       ColaMisiones.cantidad (ColaMisiones.mk pid) (fst (completar_mision request db))
       = ColaMisiones.cantidad (ColaMisiones.mk pid) db
         - (if pid =? CompletarMisionRequest.personaje_id request then 1 else 0)).
Proof.
  intros Hwf. split.
  - intros request msg Hret pid. unfold aceptar_mision in *. cbv zeta in *.
    destruct (query_personaje db _); [|discriminate].
    destruct (query_mision db _); [|discriminate].
    destruct (first _); [discriminate|]. simpl.
    rewrite cantidad_add_relacion. simpl.
    now rewrite (Z.eqb_sym (AceptarMisionRequest.personaje_id request) pid).
  - intros request response Hret.
    pose proof (completar_mision_por_casos request db) as Hc.
    destruct (query_mision db _) as [mision|];
      [|destruct Hc as [e Hc]; rewrite Hc in Hret; discriminate].
    destruct (query_personaje db _) as [personaje|];
      [|destruct Hc as [e Hc]; rewrite Hc in Hret; discriminate].
    destruct (relacion_a_completar db _ _) as [relacion|] eqn:Hr;
      [|destruct Hc as [e Hc]; rewrite Hc in Hret; discriminate].
    rewrite Hc. simpl. split.
    + unfold update_relacion. apply length_map.
    + intros pid.
      apply relacion_a_completar_spec in Hr as [Hin [Hp _]].
      apply pendiente_de_par_estado in Hp as [Hp [_ He]].
      unfold ColaMisiones.cantidad, count. simpl.
      pose proof (count_update_relacion (pendiente_de pid) relacion
                    (MisionPersonaje.set_estado true relacion)
                    (misiones_personaje db) (wf_relaciones db Hwf) Hin eq_refl) as Hcnt.
      assert (H1 : pendiente_de pid (MisionPersonaje.set_estado true relacion) = false)
        by (unfold pendiente_de; simpl; apply andb_false_r).
      assert (H2 : pendiente_de pid relacion =
                   (CompletarMisionRequest.personaje_id request =? pid))
        by (unfold pendiente_de; rewrite Hp, He; apply andb_true_r).
      rewrite H1, H2 in Hcnt.
      rewrite (Z.eqb_sym pid).
      destruct (CompletarMisionRequest.personaje_id request =? pid); lia.
Qed.

Lemma tamano_tras_aceptar_completar_witness :
  ColaMisiones.cantidad (ColaMisiones.mk 1)
    (fst (aceptar_mision (AceptarMisionRequest.mk 1 1 0) db_creada)) = 1 /\
  ColaMisiones.cantidad (ColaMisiones.mk 1)
    (fst (completar_mision (CompletarMisionRequest.mk 1 1) db_aceptada)) = 0.
Proof.
  split.
  - exact (proj1 (tamano_tras_aceptar_completar db_creada
                    (reachable_wf _ (reachable_run _)))
             (AceptarMisionRequest.mk 1 1 0) "Misión aceptada correctamente"
             eq_refl 1).
  - exact (proj2 (proj2 (tamano_tras_aceptar_completar db_aceptada
                           (reachable_wf _ (reachable_run _)))
                    (CompletarMisionRequest.mk 1 1)
                    (CompletarMisionResponse.mk "Misión completada con éxito" 50 50)
                    eq_refl) 1).
Defined.

(** ** The queue is first in, first out *)

Lemma first_In {A : Type} (l : list A) (x : A) : first l = Some x -> In x l.
Proof. destruct l; simpl; [discriminate|]. intros [= ->]. now left. Qed.

(** On rows already in strictly increasing [orden], the query's
    [order_by(orden.asc()).first()] is the first row. *)
Lemma first_orden_asc_sorted r rest :
  StronglySorted (fun a b => MisionPersonaje.orden a < MisionPersonaje.orden b)
    (r :: rest) ->
  first (order_by orden_asc (r :: rest)) = Some r.
Proof.
  intros Hs. inversion Hs as [|? ? _ Hall]; subst. simpl.
  rewrite first_insert_row.
  destruct (first (order_by orden_asc rest)) as [x|] eqn:E; [|reflexivity].
  apply first_In, order_by_In in E. rewrite Forall_forall in Hall.
  specialize (Hall x E). unfold orden_asc.
  destruct (Z.leb_spec (MisionPersonaje.orden r) (MisionPersonaje.orden x));
    [reflexivity | lia].
Qed.

Lemma filter_delete_relacion_head (p : MisionPersonaje.t -> bool) r rest l :
  NoDup (map MisionPersonaje.id l) ->
  filter p l = r :: rest ->
  filter p (delete_relacion r l) = rest.
Proof.
  induction l as [|x l IH]; intros Hnd Hf; [discriminate|].
  pose proof (NoDup_ids_tail x l Hnd) as Htail.
  rewrite delete_relacion_cons. simpl in Hf.
  destruct (p x) eqn:Epx.
  - injection Hf as -> Hf. rewrite Z.eqb_refl.
    now rewrite delete_relacion_absent.
  - assert (Hr : In r l).
    { assert (H : In r (filter p l)) by (rewrite Hf; now left).
      now apply filter_In in H. }
    destruct (Z.eqb_spec (MisionPersonaje.id x) (MisionPersonaje.id r)) as [E|E].
    + exfalso. apply (Htail r Hr). congruence.
    + simpl. rewrite Epx. inversion Hnd; subst. now apply IH.
Qed.

Lemma StronglySorted_app_one {A : Type} (R : A -> A -> Prop) l n :
  StronglySorted R l -> (forall x, In x l -> R x n) ->
  StronglySorted R (l ++ [n]).
Proof.
  induction 1 as [|x l Hs IH Hx]; intros Hn; simpl.
  - repeat constructor.
  - constructor.
    + apply IH. intros y Hy. apply Hn. now right.
    + apply Forall_app. split; [assumption|].
      constructor; [|constructor]. apply Hn. now left.
Qed.

Lemma cola_encolar personaje_id mision_id db :
  cola personaje_id (fst (encolar_mision personaje_id mision_id db)) =
  cola personaje_id db ++
  [MisionPersonaje.mk
     (siguiente_id (map MisionPersonaje.id (misiones_personaje db)))
     personaje_id (Some mision_id)
     (ColaMisiones.siguiente_orden (ColaMisiones.mk personaje_id) db) false].
Proof.
  unfold cola. simpl. rewrite filter_app. simpl.
  unfold pendiente_de at 2. simpl. now rewrite Z.eqb_refl.
Qed.

Lemma cola_ordenada_encolar personaje_id mision_id db :
  cola_ordenada personaje_id db ->
  cola_ordenada personaje_id (fst (encolar_mision personaje_id mision_id db)).
Proof.
  unfold cola_ordenada. rewrite cola_encolar. intros Hs.
  apply StronglySorted_app_one; [assumption|].
  intros x Hx. simpl. apply filter_In in Hx as [Hx Hp].
  apply pendiente_de_iff in Hp as [Hp _].
  exact (proj1 (proj2 (siguiente_orden_spec (ColaMisiones.mk personaje_id) db))
           x Hx Hp).
Qed.

Lemma desencolar_cola personaje_id db r rest :
  wf db -> cola_ordenada personaje_id db ->
  cola personaje_id db = r :: rest ->
  snd (desencolar_mision personaje_id db) = desencolada r /\
  cola personaje_id (fst (desencolar_mision personaje_id db)) = rest /\
  cola_ordenada personaje_id (fst (desencolar_mision personaje_id db)).
Proof.
  intros Hwf Hs Hc. unfold cola_ordenada in *.
  assert (Hprim : ColaMisiones.primera (ColaMisiones.mk personaje_id) db = Some r).
  { unfold ColaMisiones.primera. simpl. fold (cola personaje_id db).
    rewrite Hc in *. now apply first_orden_asc_sorted. }
  unfold desencolar_mision, ColaMisiones.dequeue. cbv zeta. rewrite Hprim. simpl.
  assert (Hrest : cola personaje_id
                    (mkSession (misiones db) (personajes db)
                       (delete_relacion r (misiones_personaje db))) = rest).
  { unfold cola. simpl. apply filter_delete_relacion_head; [apply Hwf | exact Hc]. }
  split; [reflexivity|]. split; [exact Hrest|].
  rewrite Hrest. rewrite Hc in Hs. now inversion Hs.
Qed.

(** X9. A queue whose pending rows were inserted in strictly increasing
    [orden] behaves as a list: [enqueue] appends a row for the quest at its
    end and keeps the rows in increasing [orden]; [dequeue] raises the 404 on
    the empty list and otherwise returns the quest id of the head row, leaves
    the tail as the queue, and keeps it in increasing [orden]. *)
Theorem cola_como_lista (db : Session) (personaje_id : Z) :
  wf db -> cola_ordenada personaje_id db ->
  (forall mision_id,
     exists nueva,
       MisionPersonaje.mision_id nueva = Some mision_id /\
       cola personaje_id (fst (encolar_mision personaje_id mision_id db))
         = cola personaje_id db ++ [nueva] /\
       cola_ordenada personaje_id (fst (encolar_mision personaje_id mision_id db))) /\
  match cola personaje_id db with
  | [] => desencolar_mision personaje_id db = (db, Raised cola_vacia_404)
  | r :: rest =>
      snd (desencolar_mision personaje_id db) = desencolada r /\
      cola personaje_id (fst (desencolar_mision personaje_id db)) = rest /\
      cola_ordenada personaje_id (fst (desencolar_mision personaje_id db))
  end.
Proof.
  intros Hwf Hs. split.
  - intros mision_id. eexists. split; [|split].
    2: apply cola_encolar.
    + reflexivity.
    + now apply cola_ordenada_encolar.
  - destruct (cola personaje_id db) as [|r rest] eqn:Hc.
    + unfold desencolar_mision, ColaMisiones.dequeue. cbv zeta.
      assert (Hprim : ColaMisiones.primera (ColaMisiones.mk personaje_id) db = None).
      { unfold ColaMisiones.primera. simpl. fold (cola personaje_id db).
        now rewrite Hc. }
      now rewrite Hprim.
    + now apply desencolar_cola.
Qed.

Lemma cola_como_lista_witness :
  snd (desencolar_mision 1 db_en_cola) =
    Returned (ColaMisiones.DequeueResponse.mk "Misión eliminada de la cola" (Some 1)) /\
  cola 1 (fst (desencolar_mision 1 db_en_cola)) = [].
Proof.
  destruct (cola_como_lista db_en_cola 1 (reachable_wf _ (reachable_run _)))
    as [_ Hdeq].
  - repeat constructor.
  - destruct Hdeq as [Hret [Hrest _]]. split; [exact Hret | exact Hrest].
Defined.

Lemma encolar_todas_cola personaje_id mision_ids :
  forall db,
    wf db -> cola_ordenada personaje_id db ->
    wf (encolar_todas personaje_id mision_ids db) /\
    cola_ordenada personaje_id (encolar_todas personaje_id mision_ids db) /\
    map MisionPersonaje.mision_id
      (cola personaje_id (encolar_todas personaje_id mision_ids db))
    = map MisionPersonaje.mision_id (cola personaje_id db) ++ map Some mision_ids.
Proof.
  induction mision_ids as [|q qs IH]; intros db Hwf Hs.
  - simpl. rewrite app_nil_r. auto.
  - change (encolar_todas personaje_id (q :: qs) db)
      with (encolar_todas personaje_id qs (fst (encolar_mision personaje_id q db))).
    destruct (IH (fst (encolar_mision personaje_id q db))) as [Hwf' [Hs' Hq]].
    + exact (serve_wf (POST_cola_enqueue personaje_id q) db Hwf).
    + now apply cola_ordenada_encolar.
    + split; [assumption|]. split; [assumption|].
      rewrite Hq, cola_encolar, map_app, <- app_assoc. reflexivity.
Qed.

Lemma desencolar_n_cola personaje_id :
  forall n db,
    wf db -> cola_ordenada personaje_id db ->
    List.length (cola personaje_id db) = n ->
    snd (desencolar_n personaje_id n db) = map desencolada (cola personaje_id db) /\
    cola personaje_id (fst (desencolar_n personaje_id n db)) = [].
Proof.
  induction n as [|n IH]; intros db Hwf Hs Hlen.
  - destruct (cola personaje_id db) eqn:E; [|discriminate]. simpl. auto.
  - destruct (cola personaje_id db) as [|r rest] eqn:E; [discriminate|].
    destruct (desencolar_cola personaje_id db r rest Hwf Hs E) as [Hret [Hrest Hs']].
    simpl. destruct (desencolar_mision personaje_id db) as [db' out] eqn:Hd.
    simpl in Hret, Hrest, Hs'.
    assert (Hwf' : wf db').
    { pose proof (serve_wf (POST_cola_dequeue personaje_id) db Hwf) as H.
      simpl in H. now rewrite Hd in H. }
    destruct (IH db' Hwf' Hs') as [Hrets Hfin].
    + rewrite Hrest. simpl in Hlen. lia.
    + destruct (desencolar_n personaje_id n db') as [db'' rs]. simpl in *.
      rewrite Hret, Hrets, Hrest. auto.
Qed.

(** X10. First in, first out. On a queue whose pending rows were inserted in
    strictly increasing [orden] (an empty queue is one), enqueueing quest ids
    one after another and then dequeueing as many times as the queue is long
    returns first the quest ids that were already waiting, in their order,
    then the enqueued quest ids in the order they were enqueued, and leaves
    the queue empty. *)
Theorem cola_fifo (db : Session) (personaje_id : Z) (mision_ids : list Z) :
  wf db -> cola_ordenada personaje_id db ->
  let db' := encolar_todas personaje_id mision_ids db in
  let n := (List.length (cola personaje_id db) + List.length mision_ids)%nat in
  snd (desencolar_n personaje_id n db') =
    map (fun m => Returned (ColaMisiones.DequeueResponse.mk
                              "Misión eliminada de la cola" m))
      (map MisionPersonaje.mision_id (cola personaje_id db) ++ map Some mision_ids) /\
  cola personaje_id (fst (desencolar_n personaje_id n db')) = [].
Proof.
  intros Hwf Hs db' n.
  destruct (encolar_todas_cola personaje_id mision_ids db Hwf Hs) as [Hwf' [Hs' Hq]].
  fold db' in Hwf', Hs', Hq.
  assert (Hlen : List.length (cola personaje_id db') = n).
  { rewrite <- (length_map MisionPersonaje.mision_id), Hq, length_app, !length_map.
    reflexivity. }
  destruct (desencolar_n_cola personaje_id n db' Hwf' Hs' Hlen) as [Hret Hfin].
  split; [|assumption].
  rewrite Hret, <- Hq, map_map. reflexivity.
Qed.

Lemma cola_fifo_witness :
  snd (desencolar_n 1 3 (encolar_todas 1 [2; 1] db_en_cola)) =
  [Returned (ColaMisiones.DequeueResponse.mk "Misión eliminada de la cola" (Some 1));
   Returned (ColaMisiones.DequeueResponse.mk "Misión eliminada de la cola" (Some 2));
   Returned (ColaMisiones.DequeueResponse.mk "Misión eliminada de la cola" (Some 1))].
Proof.
  refine (proj1 (cola_fifo db_en_cola 1 [2; 1]
                   (reachable_wf _ (reachable_run _)) _)).
  repeat constructor.
Defined.

(** ** Accepting with a chosen orden *)

(** Where an appended row stands against the row that was first. *)
Lemma first_orden_asc_app_any (l : list MisionPersonaje.t) (n : MisionPersonaje.t) :
  first (order_by orden_asc (l ++ [n])) =
  match first (order_by orden_asc l) with
  | Some r => if orden_asc r n then Some r else Some n
  | None => Some n
  end.
Proof.
  induction l as [|x l IH]; [reflexivity|].
  simpl. rewrite !first_insert_row, IH.
  destruct (first (order_by orden_asc l)) as [r|]; unfold orden_asc;
    repeat match goal with
           | |- context [?a <=? ?b] => destruct (Z.leb_spec a b)
           end; try reflexivity; lia.
Qed.

(** X11. The [orden] given to [aceptar_mision] places the quest in the
    queue. When an accept returns with an [orden] below that of every pending
    row of the character, the next [dequeue] returns the accepted quest; when
    some pending row of the character has a smaller [orden], the next
    [dequeue] returns what it would have returned before the accept. *)
Theorem aceptar_mision_posicion
  (db : Session) (request : AceptarMisionRequest.t) (msg : string) :
  snd (aceptar_mision request db) = Returned msg ->
  ((forall r, In r (misiones_personaje db) ->
              pendiente_de (AceptarMisionRequest.personaje_id request) r = true ->
              AceptarMisionRequest.orden request < MisionPersonaje.orden r) ->
   snd (desencolar_mision (AceptarMisionRequest.personaje_id request)
          (fst (aceptar_mision request db)))
   = Returned (ColaMisiones.DequeueResponse.mk "Misión eliminada de la cola"
                 (Some (AceptarMisionRequest.mision_id request)))) /\
  ((exists r, In r (misiones_personaje db) /\
              pendiente_de (AceptarMisionRequest.personaje_id request) r = true /\
              MisionPersonaje.orden r < AceptarMisionRequest.orden request) ->
   snd (desencolar_mision (AceptarMisionRequest.personaje_id request)
          (fst (aceptar_mision request db)))
   = snd (desencolar_mision (AceptarMisionRequest.personaje_id request) db)).
Proof.
  intros Hret.
  set (pid := AceptarMisionRequest.personaje_id request) in *.
  assert (Hdb : fst (aceptar_mision request db) =
                add_relacion db pid (AceptarMisionRequest.mision_id request)
                  (AceptarMisionRequest.orden request)).
  { unfold aceptar_mision in *. cbv zeta in *. fold pid in Hret |- *.
    destruct (query_personaje db pid); [|discriminate].
    destruct (query_mision db _); [|discriminate].
    destruct (first _); [discriminate | reflexivity]. }
  rewrite Hdb.
  assert (Hprim :
    ColaMisiones.primera (ColaMisiones.mk pid)
      (add_relacion db pid (AceptarMisionRequest.mision_id request)
         (AceptarMisionRequest.orden request)) =
    match ColaMisiones.primera (ColaMisiones.mk pid) db with
    | Some r =>
        if MisionPersonaje.orden r <=? AceptarMisionRequest.orden request
        then Some r
        else Some (MisionPersonaje.mk
                     (siguiente_id (map MisionPersonaje.id (misiones_personaje db)))
                     pid (Some (AceptarMisionRequest.mision_id request))
                     (AceptarMisionRequest.orden request) false)
    | None =>
        Some (MisionPersonaje.mk
                (siguiente_id (map MisionPersonaje.id (misiones_personaje db)))
                pid (Some (AceptarMisionRequest.mision_id request))
                (AceptarMisionRequest.orden request) false)
    end).
  { unfold ColaMisiones.primera. simpl. rewrite filter_app. simpl.
    unfold pendiente_de at 2. simpl. rewrite Z.eqb_refl. simpl.
    now rewrite first_orden_asc_app_any. }
  unfold desencolar_mision, ColaMisiones.dequeue. cbv zeta. rewrite Hprim.
  destruct (ColaMisiones.primera (ColaMisiones.mk pid) db) as [r0|] eqn:E.
  - apply primera_Some in E as [Hin [Hp Hmin]]. simpl in Hp, Hmin. split.
    + intros Hlow. specialize (Hlow r0 Hin Hp).
      destruct (Z.leb_spec (MisionPersonaje.orden r0)
                  (AceptarMisionRequest.orden request)); [lia | reflexivity].
    + intros [r [Hr [Hpr Hlt]]]. specialize (Hmin r Hr Hpr).
      destruct (Z.leb_spec (MisionPersonaje.orden r0)
                  (AceptarMisionRequest.orden request)); [reflexivity | lia].
  - split; [reflexivity|].
    intros [r [Hr [Hpr _]]]. rewrite primera_None in E. simpl in E.
    rewrite (E r Hr) in Hpr. discriminate.
Qed.

Lemma aceptar_mision_posicion_witness :
  snd (desencolar_mision 1
         (fst (aceptar_mision (AceptarMisionRequest.mk 1 2 (-1)) db_en_cola)))
  = Returned (ColaMisiones.DequeueResponse.mk "Misión eliminada de la cola" (Some 2)) /\
  snd (desencolar_mision 1
         (fst (aceptar_mision (AceptarMisionRequest.mk 1 2 5) db_en_cola)))
  = Returned (ColaMisiones.DequeueResponse.mk "Misión eliminada de la cola" (Some 1)).
Proof.
  split.
  - apply (proj1 (aceptar_mision_posicion db_en_cola
                    (AceptarMisionRequest.mk 1 2 (-1))
                    "Misión aceptada correctamente" eq_refl)).
    intros r [<-|[]] _. vm_compute. reflexivity.
  - refine (proj2 (aceptar_mision_posicion db_en_cola
                     (AceptarMisionRequest.mk 1 2 5)
                     "Misión aceptada correctamente" eq_refl) _).
    exists (MisionPersonaje.mk 1 1 (Some 1) 0 false).
    split; [left; reflexivity | split; [reflexivity | vm_compute; reflexivity]].
Defined.

(** ** One pending row per pair, without enqueue *)

Lemma filter_map_le {A : Type} (p : A -> bool) (g : A -> A) (l : list A) :
  (forall x, p (g x) = true -> p x = true) ->
  (List.length (filter p (map g l)) <= List.length (filter p l))%nat.
Proof.
  intros H. induction l as [|x l IH]; simpl; [lia|].
  destruct (p (g x)) eqn:E.
  - rewrite (H x E). simpl. lia.
  - destruct (p x); simpl; lia.
Qed.

Lemma filter_filter_le {A : Type} (p q : A -> bool) (l : list A) :
  (List.length (filter p (filter q l)) <= List.length (filter p l))%nat.
Proof.
  induction l as [|x l IH]; simpl; [lia|].
  destruct (q x), (p x) eqn:E; simpl; rewrite ?E; simpl; lia.
Qed.

Lemma serve_una_pendiente req db :
  sin_enqueue req ->
  (forall pid mid,
     (List.length (filter (pendiente_de_par pid mid) (misiones_personaje db)) <= 1)%nat) ->
  forall pid mid,
    (List.length (filter (pendiente_de_par pid mid)
                    (misiones_personaje (serve req db))) <= 1)%nat.
Proof.
  intros Hreq Hinv pid mid. specialize (Hinv pid mid) as Hpm.
  destruct req; simpl in *.
  - assumption.
  - unfold actualizar_mision. now destruct (query_mision db id).
  - unfold eliminar_mision. destruct (query_mision db id); simpl; [|assumption].
    etransitivity; [apply filter_map_le | exact Hpm].
    intros x. destruct (option_Z_eqb _ _); [|auto].
    unfold pendiente_de_par. simpl. rewrite andb_false_r. discriminate.
  - assumption.
  - unfold aceptar_mision. cbv zeta.
    destruct (query_personaje db _); [|assumption].
    destruct (query_mision db _); [|assumption].
    destruct (first _) eqn:E; [assumption|]. simpl.
    rewrite filter_app, length_app. simpl.
    destruct (pendiente_de_par pid mid _) eqn:Hn; simpl; [|lia].
    apply pendiente_de_par_iff in Hn as [Hp [Hm _]]. simpl in Hp, Hm.
    injection Hm as Hm. rewrite Hp, Hm in E.
    apply first_None in E. rewrite E. simpl. lia.
  - pose proof (completar_mision_por_casos request db) as Hc.
    destruct (query_mision db _);
      [|destruct Hc as [e ->]; assumption].
    destruct (query_personaje db _);
      [|destruct Hc as [e ->]; assumption].
    destruct (relacion_a_completar db _ _) as [relacion|];
      [|destruct Hc as [e ->]; assumption].
    rewrite Hc. simpl.
    etransitivity; [apply filter_map_le | exact Hpm].
    intros x. destruct (MisionPersonaje.id x =? _); [|auto].
    unfold pendiente_de_par. simpl. rewrite andb_false_r. discriminate.
  - destruct Hreq.
  - unfold desencolar_mision, ColaMisiones.dequeue. cbv zeta.
    destruct (ColaMisiones.primera _ db); simpl; [|assumption].
    etransitivity; [apply filter_filter_le | exact Hpm].
Qed.

Lemma una_pendiente_inv db :
  reachable_by sin_enqueue db ->
  forall pid mid,
    (List.length (filter (pendiente_de_par pid mid) (misiones_personaje db)) <= 1)%nat.
Proof.
  induction 1 as [|db req _ IH Hreq]; [simpl; lia|].
  now apply serve_una_pendiente.
Qed.

(** X12. In every database reached without the queue's [enqueue] route, a
    character has at most one pending row per quest: the check of
    [aceptar_mision] before it inserts is what keeps it so, and no other
    route adds a pending row. *)
Theorem una_pendiente_por_par (db : Session) (pid mid : Z) :
  reachable_by sin_enqueue db ->
  (List.length (filter (pendiente_de_par pid mid) (misiones_personaje db)) <= 1)%nat.
Proof. intros H. now apply una_pendiente_inv. Qed.

Lemma una_pendiente_por_par_witness :
  (List.length (filter (pendiente_de_par 1 1) (misiones_personaje db_aceptada)) <= 1)%nat.
Proof.
  apply una_pendiente_por_par.
  apply (reachable_by_run sin_enqueue
           [POST_personajes aria; POST_misiones slay_dragon 0;
            POST_aceptar_mision (AceptarMisionRequest.mk 1 1 0)]).
  repeat constructor.
Defined.

(** With a single pending row of the pair, completing it leaves none. *)
Lemma completar_agota db pid mid relacion :
  wf db ->
  (List.length (filter (pendiente_de_par pid mid) (misiones_personaje db)) <= 1)%nat ->
  relacion_a_completar db pid mid = Some relacion ->
  filter (pendiente_de_par pid mid)
    (update_relacion (MisionPersonaje.set_estado true relacion)
       (misiones_personaje db)) = [].
Proof.
  intros Hwf Hone Hr.
  apply relacion_a_completar_spec in Hr as [Hin [Hp _]].
  pose proof (count_update_relacion (pendiente_de_par pid mid) relacion
                (MisionPersonaje.set_estado true relacion)
                (misiones_personaje db) (wf_relaciones db Hwf) Hin eq_refl) as Hc.
  rewrite Hp in Hc.
  assert (H1 : pendiente_de_par pid mid (MisionPersonaje.set_estado true relacion)
               = false)
    by (unfold pendiente_de_par; simpl; apply andb_false_r).
  rewrite H1 in Hc.
  destruct (filter _ (update_relacion _ _)); [reflexivity|]. simpl in Hc. lia.
Qed.

(** X13. In a database reached without the queue's [enqueue] route,
    [completar_mision] is not repeatable: when it returns, the same request
    served again right away raises the 400 "no assignment". *)
Theorem completar_mision_no_repetible
  (db : Session) (request : CompletarMisionRequest.t)
  (response : CompletarMisionResponse.t) :
  reachable_by sin_enqueue db ->
  snd (completar_mision request db) = Returned response ->
  snd (completar_mision request (fst (completar_mision request db)))
  = Raised no_asignada.
Proof.
  intros Hreach Hret.
  pose proof (reachable_by_wf _ _ Hreach) as Hwf.
  pose proof (una_pendiente_inv db Hreach
                (CompletarMisionRequest.personaje_id request)
                (CompletarMisionRequest.mision_id request)) as Hone.
  pose proof (completar_mision_por_casos request db) as Hc.
  destruct (query_mision db _) as [mision|] eqn:Hm;
    [|destruct Hc as [e Hc]; rewrite Hc in Hret; discriminate].
  destruct (query_personaje db _) as [personaje|] eqn:Hp;
    [|destruct Hc as [e Hc]; rewrite Hc in Hret; discriminate].
  destruct (relacion_a_completar db _ _) as [relacion|] eqn:Hr;
    [|destruct Hc as [e Hc]; rewrite Hc in Hret; discriminate].
  rewrite Hc. simpl.
  set (personaje' := Personaje.mk _ _ _).
  set (db' := mkSession _ _ _).
  assert (Hp' : query_personaje db' (CompletarMisionRequest.personaje_id request)
                = Some personaje').
  { apply (query_update_personaje_same db _ personaje); [assumption|].
    simpl. now apply query_personaje_id in Hp. }
  assert (Hm' : query_mision db' (CompletarMisionRequest.mision_id request)
                = Some mision) by exact Hm.
  rewrite (completar_mision_sin_relacion db' request personaje' mision Hp' Hm');
    [reflexivity|].
  unfold relacion_a_completar. simpl.
  now rewrite (completar_agota db _ _ relacion Hwf Hone Hr).
Qed.

Lemma completar_mision_no_repetible_witness :
  snd (completar_mision (CompletarMisionRequest.mk 1 1)
         (fst (completar_mision (CompletarMisionRequest.mk 1 1) db_aceptada)))
  = Raised no_asignada.
Proof.
  apply (completar_mision_no_repetible db_aceptada (CompletarMisionRequest.mk 1 1)
           (CompletarMisionResponse.mk "Misión completada con éxito" 50 50)).
  - apply (reachable_by_run sin_enqueue
             [POST_personajes aria; POST_misiones slay_dragon 0;
              POST_aceptar_mision (AceptarMisionRequest.mk 1 1 0)]).
    repeat constructor.
  - reflexivity.
Defined.

(** ** The list of active quests *)

(** X14. For a character that exists, [obtener_misiones_por_personaje]
    returns and changes nothing; its list holds, in ascending [orden] of
    their rows, the quest of every pending row of the character that has a
    quest, one entry per row, and nothing else. *)
Theorem misiones_activas_en_orden
  (str : HTTPException -> string) (db : Session) (personaje_id : Z)
  (personaje : Personaje.t) :
  query_personaje db personaje_id = Some personaje ->
  exists relaciones lista,
    obtener_misiones_por_personaje str personaje_id db = (db, Returned lista) /\
    Permutation relaciones
      (filter (fun r => pendiente_de personaje_id r && join_Mision db r)
         (misiones_personaje db)) /\
    StronglySorted
      (fun a b => MisionPersonaje.orden a <= MisionPersonaje.orden b) relaciones /\
    Forall2 (fun r m => relacion_mision db r = Some m) relaciones lista.
Proof. apply obtener_misiones_existente. Qed.

Lemma misiones_activas_en_orden_witness :
  exists lista,
    obtener_misiones_por_personaje detail 1 db_aceptada = (db_aceptada, Returned lista) /\
    List.length lista = 1%nat.
Proof.
  destruct (misiones_activas_en_orden detail db_aceptada 1 (Personaje.mk 1 "Aria" 0)
              eq_refl) as [relaciones [lista [Heq [Hperm [_ Hall]]]]].
  exists lista. split; [exact Heq|].
  rewrite <- (Forall2_length Hall). exact (Permutation_length Hperm).
Defined.

(** Where an entry of the list comes from. *)
Lemma obtener_misiones_origen str db pid lista q :
  snd (obtener_misiones_por_personaje str pid db) = Returned lista ->
  In q lista ->
  exists r, In r (misiones_personaje db) /\ pendiente_de pid r = true /\
            relacion_mision db r = Some q.
Proof.
  unfold obtener_misiones_por_personaje, obtener_misiones_por_personaje_try.
  destruct (query_personaje db pid); simpl; [|discriminate].
  intros [= <-] Hq. apply in_flat_map in Hq as [r [Hr Hq]].
  destruct (relacion_mision db r) as [m|] eqn:E; [|destruct Hq].
  destruct Hq as [<-|[]]. apply order_by_In in Hr.
  apply filter_In in Hr as [Hr Hp]. apply filter_In in Hr as [Hr _]. eauto.
Qed.

Lemma Forall2_In_l {A B : Type} (R : A -> B -> Prop) l l' a :
  Forall2 R l l' -> In a l -> exists b, In b l' /\ R a b.
Proof.
  induction 1 as [|x y l l' Hxy _ IH]; [intros []|].
  intros [->|Ha].
  - exists y. split; [now left | assumption].
  - destruct (IH Ha) as [b [Hb Hab]]. exists b. split; [now right | assumption].
Qed.

(** X15. A quest just accepted is active: when [aceptar_mision] returns, the
    list of active quests of the character, asked for right away, is returned
    and contains the accepted quest. *)
Theorem aceptada_esta_activa
  (str : HTTPException -> string) (db : Session)
  (request : AceptarMisionRequest.t) (msg : string) :
  snd (aceptar_mision request db) = Returned msg ->
  exists mision lista,
    query_mision db (AceptarMisionRequest.mision_id request) = Some mision /\
    snd (obtener_misiones_por_personaje str
           (AceptarMisionRequest.personaje_id request)
           (fst (aceptar_mision request db))) = Returned lista /\
    In mision lista.
Proof.
  intros Hret. unfold aceptar_mision in *. cbv zeta in *.
  destruct (query_personaje db _) as [personaje|] eqn:Hp; [|discriminate].
  destruct (query_mision db _) as [mision|] eqn:Hm; [|discriminate].
  destruct (first _); [discriminate|]. simpl.
  set (pid := AceptarMisionRequest.personaje_id request) in *.
  set (mid := AceptarMisionRequest.mision_id request) in *.
  set (db' := add_relacion db pid mid (AceptarMisionRequest.orden request)).
  destruct (obtener_misiones_existente str db' pid personaje Hp)
    as [relaciones [lista [Heq [Hperm [_ Hall]]]]].
  exists mision, lista. split; [reflexivity|]. split; [now rewrite Heq|].
  set (nueva := MisionPersonaje.mk
                  (siguiente_id (map MisionPersonaje.id (misiones_personaje db)))
                  pid (Some mid) (AceptarMisionRequest.orden request) false).
  assert (Hrel : relacion_mision db' nueva = Some mision) by exact Hm.
  assert (Hin : In nueva relaciones).
  { apply (Permutation_in _ (Permutation_sym Hperm)). apply filter_In. split.
    - simpl. apply in_or_app. right. now left.
    - unfold pendiente_de, join_Mision. rewrite Hrel. simpl.
      now rewrite Z.eqb_refl. }
  destruct (Forall2_In_l _ _ _ _ Hall Hin) as [q [Hq Hrq]].
  rewrite Hrel in Hrq. injection Hrq as <-. exact Hq.
Qed.

Lemma aceptada_esta_activa_witness :
  exists lista,
    snd (obtener_misiones_por_personaje detail 1
           (fst (aceptar_mision (AceptarMisionRequest.mk 1 1 0) db_creada)))
      = Returned lista /\
    In (Mision.mk 1 "Slay Dragon" "Slay the dragon" 50 0) lista.
Proof.
  destruct (aceptada_esta_activa detail db_creada (AceptarMisionRequest.mk 1 1 0)
              "Misión aceptada correctamente" eq_refl)
    as [mision [lista [Hm [Hl Hin]]]].
  exists lista. split; [exact Hl|].
  injection Hm as <-. exact Hin.
Defined.

(** X16. In a database reached without the queue's [enqueue] route, a quest
    just completed is no longer active: after [completar_mision] returns, no
    list of active quests of that character contains a quest with the
    completed id. *)
Theorem completada_no_esta_activa
  (str : HTTPException -> string) (db : Session)
  (request : CompletarMisionRequest.t) (response : CompletarMisionResponse.t) :
  reachable_by sin_enqueue db ->
  snd (completar_mision request db) = Returned response ->
  forall lista q,
    snd (obtener_misiones_por_personaje str
           (CompletarMisionRequest.personaje_id request)
           (fst (completar_mision request db))) = Returned lista ->
    In q lista -> Mision.id q <> CompletarMisionRequest.mision_id request.
Proof.
  intros Hreach Hret lista q Hl Hq Hid.
  pose proof (reachable_by_wf _ _ Hreach) as Hwf.
  pose proof (una_pendiente_inv db Hreach
                (CompletarMisionRequest.personaje_id request)
                (CompletarMisionRequest.mision_id request)) as Hone.
  pose proof (completar_mision_por_casos request db) as Hc.
  destruct (query_mision db _) as [mision|];
    [|destruct Hc as [e Hc]; rewrite Hc in Hret; discriminate].
  destruct (query_personaje db _) as [personaje|];
    [|destruct Hc as [e Hc]; rewrite Hc in Hret; discriminate].
  destruct (relacion_a_completar db _ _) as [relacion|] eqn:Hr;
    [|destruct Hc as [e Hc]; rewrite Hc in Hret; discriminate].
  rewrite Hc in Hl. simpl in Hl.
  destruct (obtener_misiones_origen _ _ _ _ _ Hl Hq) as [r [Hin [Hp Hrel]]].
  simpl in Hin.
  pose proof (completar_agota db _ _ relacion Hwf Hone Hr) as Hnone.
  assert (Hpar : pendiente_de_par (CompletarMisionRequest.personaje_id request)
                   (CompletarMisionRequest.mision_id request) r = true).
  { apply pendiente_de_iff in Hp as [Hp He]. apply pendiente_de_par_iff.
    split; [assumption|]. split; [|assumption].
    unfold relacion_mision in Hrel.
    destruct (MisionPersonaje.mision_id r) as [m|]; [|discriminate].
    apply query_mision_id in Hrel as [_ Hrel]. congruence. }
  assert (Hf : In r (filter (pendiente_de_par
                               (CompletarMisionRequest.personaje_id request)
                               (CompletarMisionRequest.mision_id request))
                       (update_relacion (MisionPersonaje.set_estado true relacion)
                          (misiones_personaje db))))
    by (apply filter_In; auto).
  rewrite Hnone in Hf. destruct Hf.
Qed.

Lemma completada_no_esta_activa_witness :
  snd (obtener_misiones_por_personaje detail 1
         (fst (completar_mision (CompletarMisionRequest.mk 1 1) db_dos_aceptadas)))
    = Returned [Mision.mk 2 "Find Herbs" "Gather herbs" 10 1] /\
  Mision.id (Mision.mk 2 "Find Herbs" "Gather herbs" 10 1) <> 1.
Proof.
  split; [reflexivity|].
  apply (completada_no_esta_activa detail db_dos_aceptadas
           (CompletarMisionRequest.mk 1 1)
           (CompletarMisionResponse.mk "Misión completada con éxito" 50 50)
           (reachable_by_run sin_enqueue
              [POST_personajes aria; POST_misiones slay_dragon 0;
               POST_misiones (MisionCreate.mk "Find Herbs" "Gather herbs" 10) 1;
               POST_aceptar_mision (AceptarMisionRequest.mk 1 1 0);
               POST_aceptar_mision (AceptarMisionRequest.mk 1 2 1)]
              ltac:(repeat constructor))
           eq_refl
           [Mision.mk 2 "Find Herbs" "Gather herbs" 10 1]
           (Mision.mk 2 "Find Herbs" "Gather herbs" 10 1)
           eq_refl (or_introl eq_refl)).
Defined.

(** ** Characters *)

(** X17. A character just created is listed: [crear_personaje] returns a
    character with the body's name under an id that no character had;
    [obtener_personajes] then returns the former list followed by the new
    character; and [aceptar_mision] for the new id no longer raises the 404
    of a missing character. *)
Theorem crear_personaje_obtener_personajes
  (personaje : PersonajeCreate.t) (db : Session) :
  exists nuevo,
    crear_personaje personaje db =
      (mkSession (misiones db) (personajes db ++ [nuevo]) (misiones_personaje db),
       Returned nuevo) /\
    Personaje.nombre nuevo = PersonajeCreate.nombre personaje /\
    (forall p, In p (personajes db) -> Personaje.id p <> Personaje.id nuevo) /\
    snd (obtener_personajes (fst (crear_personaje personaje db)))
      = Returned (personajes db ++ [nuevo]) /\
    (forall mid orden,
       snd (aceptar_mision (AceptarMisionRequest.mk (Personaje.id nuevo) mid orden)
              (fst (crear_personaje personaje db)))
       <> Raised personaje_no_encontrado).
Proof.
  eexists. split; [reflexivity|]. simpl. split; [reflexivity|].
  split; [|split; [reflexivity|]].
  - intros p Hp.
    pose proof (siguiente_id_fresh (map Personaje.id (personajes db)) (Personaje.id p)
                  (in_map Personaje.id _ p Hp)). lia.
  - intros mid orden. unfold aceptar_mision. cbv zeta. simpl.
    assert (Hq : query_personaje
                   (mkSession (misiones db)
                      (personajes db ++
                       [Personaje.mk (siguiente_id (map Personaje.id (personajes db)))
                          (PersonajeCreate.nombre personaje) 0])
                      (misiones_personaje db))
                   (siguiente_id (map Personaje.id (personajes db)))
                 = Some (Personaje.mk (siguiente_id (map Personaje.id (personajes db)))
                           (PersonajeCreate.nombre personaje) 0)).
    { unfold query_personaje. simpl. rewrite filter_app.
      rewrite (filter_key_fresh Personaje.id). simpl. now rewrite Z.eqb_refl. }
    rewrite Hq.
    destruct (query_mision _ mid); [|discriminate].
    destruct (first _); discriminate.
Qed.

Lemma serve_personaje req db pid p :
  query_personaje db pid = Some p ->
  exists p',
    query_personaje (serve req db) pid = Some p' /\
    Personaje.id p' = Personaje.id p /\
    Personaje.nombre p' = Personaje.nombre p.
Proof.
  intros Hq.
  assert (Hsame : forall db', personajes db' = personajes db ->
            exists p', query_personaje db' pid = Some p' /\
                       Personaje.id p' = Personaje.id p /\
                       Personaje.nombre p' = Personaje.nombre p).
  { intros db' E. exists p. split; [|auto].
    now rewrite (query_personaje_ext db' db pid E). }
  destruct req; simpl.
  - now apply Hsame.
  - apply Hsame, personajes_actualizar_mision.
  - apply Hsame, personajes_eliminar_mision.
  - exists p. split; [|auto]. now apply query_personaje_app.
  - apply Hsame, personajes_aceptar_mision.
  - pose proof (completar_mision_por_casos request db) as Hc.
    destruct (query_mision db _) as [mision|] eqn:Hm.
    2:{ destruct Hc as [e ->]. now apply Hsame. }
    destruct (query_personaje db (CompletarMisionRequest.personaje_id request))
      as [personaje|] eqn:Hp.
    2:{ destruct Hc as [e ->]. now apply Hsame. }
    destruct (relacion_a_completar db _ _) as [relacion|] eqn:Hr.
    2:{ destruct Hc as [e ->]. now apply Hsame. }
    rewrite Hc. simpl.
    destruct (Z.eq_dec (CompletarMisionRequest.personaje_id request) pid) as [E|E].
    + rewrite E in Hp. rewrite Hq in Hp. injection Hp as <-.
      eexists. split.
      * apply (query_update_personaje_same db pid p); [assumption|].
        simpl. now apply query_personaje_id in Hq.
      * simpl. auto.
    + exists p. split; [|auto].
      rewrite query_update_personaje_other; [assumption|].
      simpl. apply query_personaje_id in Hp as [_ Hp]. congruence.
  - now apply Hsame.
  - apply Hsame, personajes_desencolar_mision.
Qed.

(** X18. No route deletes or renames a character: a character that exists
    still exists, under the same id and name, after any sequence of writing
    requests. *)
Theorem personajes_permanecen
  (reqs : list Request) (db : Session) (pid : Z) (p : Personaje.t) :
  query_personaje db pid = Some p ->
  exists p',
    query_personaje (fold_left (fun db req => serve req db) reqs db) pid = Some p' /\
    Personaje.id p' = Personaje.id p /\
    Personaje.nombre p' = Personaje.nombre p.
Proof.
  revert db p. induction reqs as [|req reqs IH]; intros db p Hq; simpl.
  - exists p. auto.
  - destruct (serve_personaje req db pid p Hq) as [p1 [Hq1 [Hid1 Hn1]]].
    destruct (IH _ _ Hq1) as [p' [Hq' [Hid' Hn']]].
    exists p'. split; [assumption|]. split; congruence.
Qed.

Lemma personajes_permanecen_witness :
  exists p',
    query_personaje
      (fold_left (fun db req => serve req db)
         [POST_completar_mision (CompletarMisionRequest.mk 1 1);
          DELETE_misiones 1; POST_cola_dequeue 1] db_aceptada) 1 = Some p' /\
    Personaje.nombre p' = "Aria".
Proof.
  destruct (personajes_permanecen
              [POST_completar_mision (CompletarMisionRequest.mk 1 1);
               DELETE_misiones 1; POST_cola_dequeue 1]
              db_aceptada 1 (Personaje.mk 1 "Aria" 0) eq_refl)
    as [p' [Hq [_ Hn]]].
  exists p'. split; [exact Hq | exact Hn].
Defined.
